(** * Next Image Manipulator (nim): palette codec and image converter

    A shallow embedding of [src/main.cc]: the colour quantiser
    ([gfxReduce3], [gfxReduce2]), the [Palette] class (default ramp, the
    constructor reading a .nip or JASC .pal stream, [write]) and
    [process_image], followed by the properties proved about them.

    Conventions.
    - [u8], [u16]: unsigned integers are [Z] with the wrap-around written out.
    - Bytes of a file are [Z] values in 0..255; a file is a [list Z].
    - A local variable declared without initialiser holds an indeterminate
      value.  The model reads it from an oracle [uninit name k] (variable
      name, ordinal of the declaration's execution); every theorem holds for
      all oracles.
    - The distance computation of [process_image] uses [float]; all operands
      are integers below 2^24, on which IEEE single arithmetic is exact, so
      the model computes in [Z]. *)

From Stdlib Require Import String Ascii ZArith List Lia Bool.
Import ListNotations.
Open Scope Z_scope.

(* ====================================================================== *)
(** * Part I: the program *)
(* ====================================================================== *)

(** ** Scalar types *)

Definition u8 (z : Z) : Z := z mod 256.
Definition u16 (z : Z) : Z := z mod 65536.

Definition INT_MAX : Z := 2147483647.
Definition INT_MIN : Z := -2147483648.

(** The value an [int] operation leaves when its mathematical result is [z]:
    [z] itself inside the range of [int]; outside it (signed overflow) the
    two's complement result that the target computes, [z] modulo 2^32 taken
    in -2^31 .. 2^31 - 1. *)
Definition int_wrap (z : Z) : Z := (z + 2147483648) mod 4294967296 - 2147483648.

(** [size_t(int)] on a 64-bit target. *)
Definition size_t (z : Z) : Z := z mod 2 ^ 64.

(** Character codes of a string literal. *)
Definition lit (s : string) : list Z :=
  map (fun a => Z.of_N (N_of_ascii a)) (list_ascii_of_string s).

Fixpoint bytes_eqb (a b : list Z) : bool :=
  match a, b with
  | [], [] => true
  | x :: a', y :: b' => (x =? y) && bytes_eqb a' b'
  | _, _ => false
  end.

(** ** Utilities: the colour quantiser *)

Definition kColour_3bit : list Z := [0; 36; 73; 109; 146; 182; 219; 255].
Definition kColour_2bit : list Z := [0; 85; 170; 255].

(** [table[i]]; the tables are only indexed inside their bounds (see
    [Palette_wf]), the default is never reached there. *)
Definition table_at (table : list Z) (i : Z) : Z := nth (Z.to_nat i) table 0.

(** The body of the [for] loop shared by [gfxReduce3] and [gfxReduce2]:
    [table] holds the entries still to visit, [i] the loop counter. *)
Fixpoint reduce_loop (table : list Z) (v i minIdx minDiff : Z) : Z :=
  match table with
  | [] => minIdx
  | t :: rest =>
      let diff := Z.abs (v - t) in
      if 0 =? diff then i                       (* minIdx = i; break *)
      else if diff <? minDiff
           then reduce_loop rest v (i + 1) i diff
           else reduce_loop rest v (i + 1) minIdx minDiff
  end.

Definition gfxReduce3 (v : Z) : Z := u8 (reduce_loop kColour_3bit v 0 0 255).
Definition gfxReduce2 (v : Z) : Z := u8 (reduce_loop kColour_2bit v 0 0 255).

(** ** Data structures *)

Record Colour := mkColour { m_red : Z; m_green : Z; m_blue : Z }.

Record Palette := mkPalette {
  m_colours : list Colour;
  m_transparentColour : Z
}.

Definition numColours (p : Palette) : Z := Z.of_nat (length (m_colours p)).
Definition getTransColour (p : Palette) : Z := m_transparentColour p.
Definition setTransparent (index : Z) (p : Palette) : Palette :=
  mkPalette (m_colours p) index.

(** [Palette::Palette()]: the RRRGGGBB ramp. *)
Definition default_colour (i : Z) : Colour :=
  let r := u8 (Z.shiftr (Z.land i 0xe0) 5) in
  let g := u8 (Z.shiftr (Z.land i 0x1c) 2) in
  let b := u8 (Z.shiftl (Z.land i 0x03) 1
               + Z.lor (Z.shiftr (Z.land i 0x02) 1) (Z.land i 0x01)) in
  mkColour r g b.

Definition Palette_default : Palette :=
  mkPalette (map (fun i => default_colour (Z.of_nat i)) (seq 0 256)) 0xe3.

(** ** Input streams

    [std::ifstream] opened in binary mode: the bytes already consumed, the
    bytes still pending, and the two state bits the constructor depends on. *)

Record ifstream := mkStream {
  consumed : list Z;
  pending : list Z;
  eofbit : bool;
  failbit : bool
}.

Definition open_stream (bytes : list Z) : ifstream := mkStream [] bytes false false.

Definition good (f : ifstream) : bool := negb (eofbit f) && negb (failbit f).

Definition set_fail (f : ifstream) : ifstream :=
  mkStream (consumed f) (pending f) (eofbit f) true.
Definition set_eof (f : ifstream) : ifstream :=
  mkStream (consumed f) (pending f) true (failbit f).

(** Move the get position [n] bytes forward. *)
Definition advance (n : nat) (f : ifstream) : ifstream :=
  mkStream (consumed f ++ firstn n (pending f)) (skipn n (pending f))
           (eofbit f) (failbit f).

(** [f.read(buf, n)]: returns the bytes stored into [buf].  A stream that is
    not good stores nothing and gets failbit; a short read stores what there
    is and sets eofbit and failbit. *)
Definition read (n : nat) (f : ifstream) : list Z * ifstream :=
  if good f then
    let got := firstn n (pending f) in
    let f' := advance n f in
    if (length got <? n)%nat then (got, set_fail (set_eof f')) else (got, f')
  else ([], set_fail f).

(** The object a [read] wrote into: the bytes read replace the first bytes of
    the old representation. *)
Definition stored (old got : list Z) : list Z := got ++ skipn (length got) old.

Definition stored_u8 (old : Z) (got : list Z) : Z :=
  match got with b :: _ => b | [] => u8 old end.

Definition le_bytes4 (z : Z) : list Z :=
  [z mod 256; (z / 256) mod 256; (z / 65536) mod 256; (z / 16777216) mod 256].

Fixpoint le_value (bytes : list Z) : Z :=
  match bytes with
  | [] => 0
  | b :: rest => b + 256 * le_value rest
  end.

(** [f.seekg(0, ios::beg)]: clears eofbit, then seeks unless the stream
    has failed. *)
Definition seekg_beg (f : ifstream) : ifstream :=
  if failbit f then mkStream (consumed f) (pending f) false true
  else mkStream [] (consumed f ++ pending f) false false.

(** [isspace] and [isdigit] in the classic locale. *)
Definition isspace (c : Z) : bool := (c =? 32) || ((9 <=? c) && (c <=? 13)).
Definition isdigit (c : Z) : bool := (48 <=? c) && (c <=? 57).

Fixpoint span (keep : Z -> bool) (l : list Z) : list Z * list Z :=
  match l with
  | [] => ([], [])
  | c :: rest =>
      if keep c then let (a, b) := span keep rest in (c :: a, b)
      else ([], l)
  end.

(** The [sentry] of a formatted input function: skips white space; reaching
    the end of the stream there sets eofbit and failbit. *)
Definition sentry (f : ifstream) : bool * ifstream :=
  if good f then
    let (ws, rest) := span isspace (pending f) in
    let f1 := advance (length ws) f in
    match rest with
    | [] => (false, set_fail (set_eof f1))
    | _ :: _ => (true, f1)
    end
  else (false, set_fail f).

(** [f >> line] for a [std::string]: [old] is kept when the sentry fails. *)
Definition extract_string (old : list Z) (f : ifstream) : list Z * ifstream :=
  let (ok, f1) := sentry f in
  if ok then
    let (tok, rest) := span (fun c => negb (isspace c)) (pending f1) in
    let f2 := advance (length tok) f1 in
    let f3 := match rest with [] => set_eof f2 | _ :: _ => f2 end in
    (tok, match tok with [] => set_fail f3 | _ :: _ => f3 end)
  else (old, f1).

Definition dec_value (digits : list Z) : Z :=
  fold_left (fun acc c => 10 * acc + (c - 48)) digits 0.

(** An optional sign in front of [l]: the factor, the sign's length, the rest. *)
Definition take_sign (l : list Z) : Z * nat * list Z :=
  match l with
  | c :: rest =>
      if c =? 45 then (-1, 1%nat, rest)
      else if c =? 43 then (1, 1%nat, rest)
      else (1, 0%nat, l)
  | [] => (1, 0%nat, l)
  end.

(** [f >> n] for an [int], as C++11 defines it: [old] is kept when the
    sentry fails; a field without digits stores 0 and sets failbit; a value
    outside [int] stores the nearest bound and sets failbit; running into
    the end sets eofbit. *)
Definition extract_int (old : Z) (f : ifstream) : Z * ifstream :=
  let (ok, f1) := sentry f in
  if ok then
    let '(sign, nsign, l1) := take_sign (pending f1) in
    let (digits, rest) := span isdigit l1 in
    let f2 := advance (nsign + length digits) f1 in
    let f3 := match rest with [] => set_eof f2 | _ :: _ => f2 end in
    match digits with
    | [] => (0, set_fail f3)
    | _ :: _ =>
        let v := sign * dec_value digits in
        if INT_MAX <? v then (INT_MAX, set_fail f3)
        else if v <? INT_MIN then (INT_MIN, set_fail f3)
        else (v, f3)
    end
  else (old, f1).

(** [std::stoi]: [None] stands for the exception thrown when no digits are
    found or the value does not fit an [int]. *)
Definition stoi (s : list Z) : option Z :=
  let (_, s0) := span isspace s in
  let '(sign, _, s1) := take_sign s0 in
  let (digits, _) := span isdigit s1 in
  match digits with
  | [] => None
  | _ :: _ =>
      let v := sign * dec_value digits in
      if (INT_MAX <? v) || (v <? INT_MIN) then None else Some v
  end.

(** ** Diagnostics

    Each error is one message on [cerr] followed by an early return. *)
Inductive error :=
  | InvalidColorValue       (* "ERROR: Invalid .pal file" *)
  | ColorCountMismatch      (* "ERROR: Invalid number of colours found in the palette." *)
  | SourceImageLoadFailure  (* "ERROR: Could not load image" *)
  | PaletteTooLarge         (* "ERROR: Invalid palette for 4-bit mode.  Must be 16 colours or less." *)
  | OddWidthFor4Bit         (* "ERROR: Width must be a multiple of 2 for 4-bit mode." *)
  | OutputWriteFailure.     (* "ERROR: Unable to open" *)

(** ** [Palette::Palette(ifstream&)] *)

(** How the constructor ends. *)
Inductive ctor_result :=
  | Constructed (p : Palette)   (* ran to its end: [m_colours = move(colours)] *)
  | Rejected (e : error)        (* message and [return]: the palette stays empty *)
  | Terminated                  (* [stoi] threw, nothing catches it *)
  | OutOfFuel.                  (* the .pal loop was cut off by the model's bound *)

(** The palette object left behind, where there is one. *)
Definition palette_of (r : ctor_result) : option Palette :=
  match r with
  | Constructed p => Some p
  | Rejected _ => Some (mkPalette [] 0xe3)
  | Terminated | OutOfFuel => None
  end.

(** Unpacking one .nip entry. *)
Definition derived_bit (p1 : Z) : Z := Z.lor (Z.shiftr (Z.land p1 2) 1) (Z.land p1 1).

Definition unpack_colour (p1 p2 : Z) : Colour :=
  let r := u8 (Z.shiftr (Z.land p1 0xe0) 5) in
  let g := u8 (Z.shiftr (Z.land p1 0x1c) 2) in
  let b := u8 (Z.lor (Z.shiftl (Z.land p1 0x03) 1) (Z.land p2 1)) in
  mkColour r g b.

(** Outcome of the .pal loop. *)
Inductive pal_loop_result :=
  | PalDone (colours : list Colour)
  | PalInvalid
  | PalOutOfFuel.

Section Constructor.

(** Indeterminate values of locals declared without initialiser. *)
Variable uninit : string -> nat -> Z.

(** [for (int i = 0; i < actualNumColours; ++i)], [n] iterations left. *)
Fixpoint nip_loop (flags : Z) (n i : nat) (f : ifstream) (colours : list Colour)
  : list Colour * ifstream :=
  match n with
  | O => (colours, f)
  | S n' =>
      let (got1, f1) := read 1 f in
      let p1 := stored_u8 (uninit "p1" i) got1 in
      let (p2, f2) :=
        if negb (Z.land flags 1 =? 0)
        then let (got2, f2) := read 1 f1 in (stored_u8 (uninit "p2" i) got2, f2)
        else (u8 (derived_bit p1), f1) in
      nip_loop flags n' (S i) f2 (colours ++ [unpack_colour p1 p2])
  end.

(** [while (!f.eof())] of the .pal branch; [i] is the counter before [++i]. *)
Fixpoint pal_loop (fuel : nat) (num : Z) (i : nat) (f : ifstream)
         (colours : list Colour) : pal_loop_result :=
  match fuel with
  | O => PalOutOfFuel
  | S fuel' =>
      if eofbit f then PalDone colours
      else
        let (red, f1) := extract_int (uninit "red" i) f in
        let (green, f2) := extract_int (uninit "green" i) f1 in
        let (blue, f3) := extract_int (uninit "blue" i) f2 in
        if (red <? 0) || (255 <? red) || (green <? 0) || (255 <? green)
           || (blue <? 0) || (255 <? blue)
        then PalInvalid
        else
          let colours' :=
            colours ++ [mkColour (gfxReduce3 (u8 red)) (gfxReduce3 (u8 green))
                                 (gfxReduce3 (u8 blue))] in
          if Z.of_nat (S i) =? num then PalDone colours'
          else pal_loop fuel' num (S i) f3 colours'
  end.

Definition Palette_from_stream (fuel : nat) (f : ifstream) : ctor_result :=
  let (got, f1) := read 4 f in
  let tag := le_value (stored (le_bytes4 (uninit "tag" 0)) got) in
  if tag =? 0x3050494e then                              (* '0PIN' *)
    let (gotn, f2) := read 1 f1 in
    let numColours := stored_u8 (uninit "numColours" 0) gotn in
    let (gotf, f3) := read 1 f2 in
    let flags := stored_u8 (uninit "flags" 0) gotf in
    let actualNumColours := if numColours =? 0 then 256 else numColours in
    let (colours, f4) := nip_loop flags (Z.to_nat actualNumColours) 0 f3 [] in
    let (gott, _) := read 1 f4 in
    Constructed (mkPalette colours (stored_u8 0xe3 gott))
  else
    let f2 := seekg_beg f1 in
    let (line1, f3) := extract_string [] f2 in
    if bytes_eqb line1 (lit "JASC-PAL") then
      let (line2, f4) := extract_string line1 f3 in
      if bytes_eqb line2 (lit "0100") then
        let (line3, f5) := extract_string line2 f4 in
        match stoi line3 with
        | None => Terminated
        | Some n =>
            let num := size_t n in
            match pal_loop fuel num 0 f5 [] with
            | PalOutOfFuel => OutOfFuel
            | PalInvalid => Rejected InvalidColorValue
            | PalDone colours =>
                if negb (num =? Z.of_nat (length colours))
                then Rejected ColorCountMismatch
                else Constructed (mkPalette colours 0xe3)
            end
        end
      else Constructed (mkPalette [] 0xe3)
    else Constructed (mkPalette [] 0xe3).

End Constructor.

(** ** [Palette::write] *)

Definition pack_p1 (c : Colour) : Z :=
  u8 (Z.lor (Z.lor (Z.shiftl (m_red c) 5) (Z.shiftl (m_green c) 2))
            (Z.shiftr (m_blue c) 1)).
Definition pack_p2 (c : Colour) : Z := u8 (Z.land (m_blue c) 1).

Definition write_colour (extended : bool) (c : Colour) : list Z :=
  if extended then [pack_p1 c; pack_p2 c] else [pack_p1 c].

Definition Palette_write (p : Palette) (extended : bool) : list Z :=
  lit "NIP0"
  ++ [u8 (Z.land (Z.of_nat (length (m_colours p))) 0xff); if extended then 1 else 0]
  ++ flat_map (write_colour extended) (m_colours p)
  ++ [m_transparentColour p].

(** ** Image command handler: [process_image] *)

(** What [stbi_load] returned: width, height and the [u32] pixels
    (byte order R, G, B, A in memory, little endian). *)
Record Image := mkImage { img_w : Z; img_h : Z; img_pixels : list Z }.

(** How [process_image] ends. *)
Inductive outcome :=
  | Failed (e : error)          (* message, [return 1], nothing written *)
  | Aborted                     (* the [assert] on the size of [dst] fired *)
  | Written (file : list Z).    (* the .nim file, [return 0] *)

Definition alpha_of (px : Z) : Z := u8 (Z.shiftr (Z.land px 0xff000000) 24).
Definition blue_of (px : Z) : Z := u8 (Z.shiftr (Z.land px 0x00ff0000) 16).
Definition green_of (px : Z) : Z := u8 (Z.shiftr (Z.land px 0x0000ff00) 8).
Definition red_of (px : Z) : Z := u8 (Z.land px 0x000000ff).

(** [dist]: squared distance from the expanded entry to the raw pixel. *)
Definition dist (c : Colour) (r g b : Z) : Z :=
  let dx := table_at kColour_3bit (m_red c) - r in
  let dy := table_at kColour_3bit (m_green c) - g in
  let dz := table_at kColour_3bit (m_blue c) - b in
  dx * dx + dy * dy + dz * dz.

(** The search loop, [colours] being the entries from index [i] on; the state
    is [(d, x)]. *)
Fixpoint search (colours : list Colour) (i trans r g b : Z) (st : Z * Z) : Z * Z :=
  match colours with
  | [] => st
  | c :: rest =>
      let st' :=
        if i =? trans then st                              (* continue *)
        else if dist c r g b <? fst st then (dist c r g b, u8 i) else st in
      search rest (i + 1) trans r g b st'
  end.

(** The final index value [x] of one pixel; [x0] is what the uninitialised
    [x] held. *)
Definition classify (p : Palette) (x0 : Z) (px : Z) : Z :=
  if negb (alpha_of px =? 255) then getTransColour p
  else snd (search (m_colours p) 0 (getTransColour p)
                   (red_of px) (green_of px) (blue_of px) (256 * 256 * 256, u8 x0)).

Definition nim_header (w h : Z) : list Z :=
  lit "NIM0" ++ [u16 w mod 256; u16 w / 256; u16 h mod 256; u16 h / 256].

(** The byte holding an even column's index [hi] and the following odd
    column's index [lo]: [idx = (x << 4)], then [idx = idx + x]. *)
Definition pack_nibbles (hi lo : Z) : Z := u8 (u8 (Z.shiftl hi 4) + lo).

Section ProcessImage.

Variable uninit : string -> nat -> Z.

(** [*s] for the pixel at offset [k]. *)
Definition pixel_at (img : Image) (k : nat) : Z :=
  nth k (img_pixels img) (uninit "img" k).

(** The final index value [x] computed for the pixel at offset [s]. *)
Definition index_at (p : Palette) (img : Image) (s : nat) : Z :=
  classify p (uninit "x" s) (pixel_at img s).

(** The byte of the two pixels at offsets [s] and [s + 1]. *)
Definition pair_at (p : Palette) (img : Image) (s : nat) : Z :=
  pack_nibbles (index_at p img s) (index_at p img (S s)).

(** The inner loop over [col], [n] iterations left; [s] is the offset of the
    source pointer. *)
Fixpoint convert_cols (p : Palette) (img : Image) (bit4 : bool) (n : nat)
         (col : Z) (s : nat) (idx : Z) (dst : list Z) : nat * list Z :=
  match n with
  | O => (s, dst)
  | S n' =>
      let x := index_at p img s in
      let '(idx', dst') :=
        if bit4 then
          if Z.rem col 2 =? 0 then (u8 (Z.shiftl x 4), dst)
          else let idx1 := u8 (idx + x) in (idx1, dst ++ [idx1])
        else (idx, dst ++ [x]) in
      convert_cols p img bit4 n' (col + 1) (S s) idx' dst'
  end.

(** The outer loop over [row], [n] iterations left. *)
Fixpoint convert_rows (p : Palette) (img : Image) (bit4 : bool) (n : nat)
         (s : nat) (dst : list Z) : list Z :=
  match n with
  | O => dst
  | S n' =>
      let (s', dst') :=
        convert_cols p img bit4 (Z.to_nat (img_w img)) 0 s 0 dst in
      convert_rows p img bit4 n' s' dst'
  end.

(** [flag4] is [cmdLine.flag('4')], [loaded] the result of [stbi_load],
    [out_ok] whether the output file could be opened.  In the [assert] the
    product [w * h] is an [int] product, converted to [size_t] for the
    comparison with [dst.size()]. *)
Definition process_image (p : Palette) (flag4 : bool) (loaded : option Image)
           (out_ok : bool) : outcome :=
  match loaded with
  | None => Failed SourceImageLoadFailure
  | Some img =>
      let w := img_w img in
      let h := img_h img in
      if flag4 && (16 <? numColours p) then Failed PaletteTooLarge
      else if flag4 && (Z.rem w 2 =? 1) then Failed OddWidthFor4Bit
      else
        let bit4 := flag4 in
        let dst := convert_rows p img bit4 (Z.to_nat h) 0 [] in
        let size := Z.of_nat (length dst) in
        let wh := int_wrap (w * h) in
        if (negb bit4 && (size =? size_t wh))
           || (bit4 && (size =? size_t (Z.quot wh 2)))
        then
          if out_ok then Written (nim_header w h ++ dst)
          else Failed OutputWriteFailure
        else Aborted
  end.

End ProcessImage.

(** ** Well-formed values *)

Definition Colour_wf (c : Colour) : Prop :=
  0 <= m_red c <= 7 /\ 0 <= m_green c <= 7 /\ 0 <= m_blue c <= 7.

(** The invariant of a palette: 1 to 256 entries, every channel a 3-bit
    index, the transparent index a byte. *)
Definition Palette_wf (p : Palette) : Prop :=
  (1 <= length (m_colours p) <= 256)%nat /\
  Forall Colour_wf (m_colours p) /\
  0 <= m_transparentColour p <= 255.

(** ** Specification-side notions *)

Definition table_diff (table : list Z) (v i : Z) : Z := Z.abs (v - table_at table i).

(** [i] is the lowest index of [table] whose entry is nearest to [v]. *)
Definition nearest_lowest (table : list Z) (v i : Z) : Prop :=
  0 <= i < Z.of_nat (length table) /\
  (forall j, 0 <= j < Z.of_nat (length table) ->
             table_diff table v i <= table_diff table v j) /\
  (forall j, 0 <= j < i -> table_diff table v i < table_diff table v j).

(** The entry of [p] at index [i]. *)
Definition entry (p : Palette) (i : Z) : Colour :=
  nth (Z.to_nat i) (m_colours p) (mkColour 0 0 0).

(** [i] may be chosen by the search: a populated index other than the
    transparent one. *)
Definition candidate (p : Palette) (i : Z) : Prop :=
  0 <= i < numColours p /\ i <> getTransColour p.

(** [x] is the lowest candidate index at minimal distance from the pixel. *)
Definition nearest_entry (p : Palette) (px x : Z) : Prop :=
  let d i := dist (entry p i) (red_of px) (green_of px) (blue_of px) in
  candidate p x /\
  (forall j, candidate p j -> d x <= d j) /\
  (forall j, candidate p j -> j < x -> d x < d j).

(** ** The .nip codec, specification side *)

(** Blue as the standard (8-bit) layout restores it: the two stored high bits,
    and a low bit recomputed from them as [((p1 & 2) >> 1) | (p1 & 1)]. *)
Definition standard_blue (b : Z) : Z :=
  let hi := Z.shiftr b 1 in
  Z.lor (Z.shiftl hi 1) (Z.lor (Z.shiftr (Z.land hi 2) 1) (Z.land hi 1)).

Definition standard_colour (c : Colour) : Colour :=
  mkColour (m_red c) (m_green c) (standard_blue (m_blue c)).

(** The flags byte [write] emits. *)
Definition flags_of (extended : bool) : Z := if extended then 1 else 0.

(** Bytes per entry under [flags]. *)
Definition entry_size (flags : Z) : nat := if Z.land flags 1 =? 0 then 1%nat else 2%nat.

(** ** JASC .pal texts, specification side *)

(** A decimal token. *)
Definition is_number (tok : list Z) : Prop :=
  tok <> [] /\ Forall (fun c => isdigit c = true) tok.

(** A separator: white space, at least one character. *)
Definition is_blank (ws : list Z) : Prop :=
  ws <> [] /\ Forall (fun c => isspace c = true) ws.

Definition channel_ok (tok : list Z) : Prop := is_number tok /\ dec_value tok <= 255.

Definition triple_ok (t : list Z * list Z * list Z) : Prop :=
  let '(r, g, b) := t in channel_ok r /\ channel_ok g /\ channel_ok b.

(** One line of the body: the line separator [nl], then [r g b] separated
    by [sp]. *)
Definition write_triple (nl sp : list Z) (t : list Z * list Z * list Z) : list Z :=
  let '(r, g, b) := t in nl ++ r ++ sp ++ g ++ sp ++ b.

(** A .pal text with the count token [count] and the given triples, lines
    separated by [nl] (for instance LF or CR LF) and channels by [sp]; the
    text ends with the last digit of the last token. *)
Definition pal_text (nl sp count : list Z)
           (triples : list (list Z * list Z * list Z)) : list Z :=
  lit "JASC-PAL" ++ nl ++ lit "0100" ++ nl ++ count
  ++ flat_map (write_triple nl sp) triples.

Definition quantise_triple (t : list Z * list Z * list Z) : Colour :=
  let '(r, g, b) := t in
  mkColour (gfxReduce3 (u8 (dec_value r))) (gfxReduce3 (u8 (dec_value g)))
           (gfxReduce3 (u8 (dec_value b))).

Definition is_nil {A} (l : list A) : bool := match l with [] => true | _ :: _ => false end.

(** [span keep] stops in front of [rest]. *)
Definition stops (keep : Z -> bool) (rest : list Z) : Prop :=
  match rest with [] => True | c :: _ => keep c = false end.

(** Number of triples the .pal loop stores when it starts with counter [i] and
    [n] triples ahead: it stops at the declared number when the counter
    reaches it, at the end of the stream otherwise. *)
Definition taken (num : Z) (i n : nat) : nat :=
  if (Z.of_nat i <? num) && (num <=? Z.of_nat (i + n)) then Z.to_nat (num - Z.of_nat i)
  else n.

(** ** Loop invariants *)

(** [gfxReduce3]/[gfxReduce2] after the entries of [pre] have been visited
    without an exact match: [minDiff] bounds every difference seen from
    below, and is either still the initial 255 or the difference of
    [minIdx], the first index to reach it. *)
Definition scan_inv (pre : list Z) (v minIdx minDiff : Z) : Prop :=
  (forall k, 0 <= k < Z.of_nat (length pre) ->
             0 < table_diff pre v k /\ minDiff <= table_diff pre v k) /\
  ((minDiff = 255 /\ minIdx = 0) \/
   (minDiff < 255 /\ 0 <= minIdx < Z.of_nat (length pre) /\
    table_diff pre v minIdx = minDiff /\
    forall k, 0 <= k < minIdx -> minDiff < table_diff pre v k)).

(** The search of [process_image] over the entries [cs] after the indices
    below [n] have been visited, [x0] being the initial content of [x]: no
    candidate was met and the state is the initial one, or the state holds
    the first candidate at minimal distance. *)
Definition entry_dist (cs : list Colour) (r g b j : Z) : Z :=
  dist (nth (Z.to_nat j) cs (mkColour 0 0 0)) r g b.

Definition search_inv (cs : list Colour) (trans r g b x0 : Z) (n : Z) (st : Z * Z) : Prop :=
  let D := entry_dist cs r g b in
  (st = (256 * 256 * 256, x0) /\ forall j, 0 <= j < n -> j = trans) \/
  (exists m, 0 <= m < n /\ m <> trans /\ st = (D m, u8 m) /\
             forall j, 0 <= j < n -> j <> trans -> D m <= D j /\ (j < m -> D m < D j)).

(** ** [indexStr]: the transparent colour given on the command line *)

(** One character of the hexadecimal form: three independent tests, each
    shifting [t] by a nibble and adding the digit, in [u8]. *)
Definition hex_step (t c : Z) : Z :=
  let t1 := if (48 <=? c) && (c <=? 57)
            then u8 (u8 (Z.shiftl t 4) + (c - 48)) else t in
  let t2 := if (97 <=? c) && (c <=? 102)
            then u8 (u8 (Z.shiftl t1 4) + (c - 97 + 10)) else t1 in
  if (65 <=? c) && (c <=? 70)
  then u8 (u8 (Z.shiftl t2 4) + (c - 65 + 10)) else t2.

(** [None] stands for the exception [stoi] throws.  [str[0]] of an empty
    string is the terminating null character. *)
Definition indexStr (str : list Z) : option Z :=
  if nth 0 str 0 =? 36                                   (* '$' *)
  then Some (fold_left hex_step str 0)
  else option_map u8 (stoi str).

(** ** Command line processing ([cmdline.cc])

    [m_exePath] comes from the operating system and [m_handlers] holds
    functions; both are left out of the record, the handlers being passed to
    [dispatch] directly. *)

Record CmdLine := mkCmdLine {
  m_command : string;
  m_params : list string;
  m_secondaryParams : list string;
  m_flags : list ascii;                    (* [set<char>] *)
  m_longFlags : list (string * string)     (* [map<string, string>] *)
}.

Definition starts_with_dash (s : string) : bool :=
  match s with
  | String c _ => Ascii.eqb c "-"
  | EmptyString => false
  end.

Definition tail_of (s : string) : string :=
  match s with
  | String _ t => t
  | EmptyString => EmptyString
  end.

Definition is_empty (s : string) : bool :=
  match s with EmptyString => true | String _ _ => false end.

(** [m_flags.emplace(c)]. *)
Definition flags_emplace (c : ascii) (flags : list ascii) : list ascii :=
  if existsb (Ascii.eqb c) flags then flags else flags ++ [c].

(** [m_longFlags[name] = value]. *)
Definition long_assign (name value : string) (m : list (string * string))
  : list (string * string) :=
  (name, value) :: filter (fun kv => negb (String.eqb (fst kv) name)) m.

Fixpoint long_find (name : string) (m : list (string * string)) : option string :=
  match m with
  | [] => None
  | (k, v) :: rest => if String.eqb k name then Some v else long_find name rest
  end.

(** The loop [while ( *argv )] of the constructor over the arguments still
    to read.  [None]: a long flag is the last argument, and the test of the
    first character of its value reads through the null pointer that ends
    [argv]. *)
Fixpoint parse_args (argv : list string) (c : CmdLine) : option CmdLine :=
  match argv with
  | [] => Some c
  | a :: rest =>
      if starts_with_dash a then
        if starts_with_dash (tail_of a) then
          let name := tail_of (tail_of a) in
          if is_empty name then
            (* double hyphen: the rest are secondary parameters *)
            Some (mkCmdLine (m_command c) (m_params c)
                            (m_secondaryParams c ++ rest) (m_flags c) (m_longFlags c))
          else
            match rest with
            | [] => None
            | value :: rest' =>
                if is_empty value
                then parse_args rest
                       (mkCmdLine (m_command c) (m_params c) (m_secondaryParams c)
                                  (m_flags c) (long_assign name EmptyString (m_longFlags c)))
                else parse_args rest'
                       (mkCmdLine (m_command c) (m_params c) (m_secondaryParams c)
                                  (m_flags c) (long_assign name value (m_longFlags c)))
            end
        else
          parse_args rest
            (mkCmdLine (m_command c) (m_params c) (m_secondaryParams c)
                       (fold_left (fun fl ch => flags_emplace ch fl)
                                  (list_ascii_of_string (tail_of a)) (m_flags c))
                       (m_longFlags c))
      else
        parse_args rest
          (mkCmdLine (m_command c) (m_params c ++ [a]) (m_secondaryParams c)
                     (m_flags c) (m_longFlags c))
  end.

(** [CmdLine::CmdLine(argc, argv)], [argv] holding its [argc] strings: with
    [argc > 1] the command is [argv[1]] and reading starts at [argv[2]];
    otherwise reading starts at [argv[0]]. *)
Definition CmdLine_new (argv : list string) : option CmdLine :=
  match argv with
  | _ :: cmd :: rest => parse_args rest (mkCmdLine cmd [] [] [] [])
  | _ => parse_args argv (mkCmdLine EmptyString [] [] [] [])
  end.

Definition numParams (c : CmdLine) : Z := Z.of_nat (length (m_params c)).
Definition param (c : CmdLine) (i : nat) : string := nth i (m_params c) EmptyString.
Definition flag (c : CmdLine) (f : ascii) : bool := existsb (Ascii.eqb f) (m_flags c).
Definition longFlag (c : CmdLine) (name : string) : string :=
  match long_find name (m_longFlags c) with
  | Some v => v
  | None => EmptyString
  end.

(** ** The command handlers and [main] *)

(** How a handler ends: it returns a code, having written at most one file,
    or the program is ended by an uncaught exception or a failed [assert],
    or the model's bound on the .pal loop was reached. *)
Inductive run :=
  | Returned (code : Z) (written : option (string * list Z))
  | Crashed
  | Unfinished.

Section Handlers.

Variable uninit : string -> nat -> Z.
(** Bound on the iterations of the .pal loop. *)
Variable fuel : nat.
(** The files that can be opened for reading, with their bytes. *)
Variable file_content : string -> option (list Z).
(** Whether a file can be created at a path. *)
Variable can_create : string -> bool.
(** [fs::path::replace_extension]. *)
Variable replace_extension : string -> string -> string.
(** [stbi_load] with four channels requested. *)
Variable load_image : string -> option Image.

Definition write_palette (p : Palette) (outPath : string) (extended : bool) : run :=
  if can_create outPath
  then Returned 0 (Some (outPath, Palette_write p extended))
  else Returned 1 None.

Definition palette_handler (cmdLine : CmdLine) : run :=
  if negb (numParams cmdLine =? 1) then Returned 1 None
  else
    let outPath := replace_extension (param cmdLine 0) ".nip" in
    let extended := flag cmdLine "9" in
    let transparentColourString := longFlag cmdLine "transparent" in
    let transColour :=
      if is_empty transparentColourString then Some 0xe3
      else indexStr (lit transparentColourString) in
    match transColour with
    | None => Crashed
    | Some transColour =>
        if flag cmdLine "d" then
          write_palette (setTransparent transColour Palette_default) outPath extended
        else
          match file_content (param cmdLine 0) with
          | None => Returned 1 None
          | Some bytes =>
              match Palette_from_stream uninit fuel (open_stream bytes) with
              | Terminated => Crashed
              | OutOfFuel => Unfinished
              | Constructed p0 =>
                  let p := setTransparent transColour p0 in
                  if numColours p =? 0 then Returned 1 None
                  else write_palette p outPath extended
              | Rejected _ =>
                  (* the palette was left empty *)
                  Returned 1 None
              end
          end
    end.

(** [process_image] as the handler calls it: the image is [param(0)], the
    output the same path with extension .nim. *)
Definition process_image_cmd (p : Palette) (cmdLine : CmdLine) : run :=
  let outPath := replace_extension (param cmdLine 0) ".nim" in
  match process_image uninit p (flag cmdLine "4") (load_image (param cmdLine 0))
                      (can_create outPath) with
  | Failed _ => Returned 1 None
  | Aborted => Crashed
  | Written file => Returned 0 (Some (outPath, file))
  end.

Definition image_handler (cmdLine : CmdLine) : run :=
  if negb (numParams cmdLine =? 1) then Returned 1 None
  else
    let palStr := longFlag cmdLine "pal" in
    if negb (is_empty palStr) then
      match file_content palStr with
      | Some bytes =>
          match Palette_from_stream uninit fuel (open_stream bytes) with
          | Terminated => Crashed
          | OutOfFuel => Unfinished
          | Constructed p => process_image_cmd p cmdLine
          | Rejected _ => process_image_cmd (mkPalette [] 0xe3) cmdLine
          end
      | None => Returned 1 None
      end
    else process_image_cmd Palette_default cmdLine.

(** [CmdLine::dispatch] over the two commands [main] registers; [None] is
    the -1 of an unknown command. *)
Definition dispatch (cmdLine : CmdLine) : option run :=
  if String.eqb (m_command cmdLine) "palette" then Some (palette_handler cmdLine)
  else if String.eqb (m_command cmdLine) "image" then Some (image_handler cmdLine)
  else None.

(** How the process ends: [main] has no [return], so its status is 0;
    [usage] tells whether the syntax summary was printed. *)
Inductive process_end :=
  | Exited (status : Z) (usage : bool) (written : option (string * list Z))
  | Killed
  | NoEnd.

Definition main (argv : list string) : process_end :=
  match CmdLine_new argv with
  | None => Killed
  | Some cmdLine =>
      match dispatch cmdLine with
      | None => Exited 0 true None
      | Some (Returned code written) => Exited 0 (code =? -1) written
      | Some Crashed => Killed
      | Some Unfinished => NoEnd
      end
  end.

End Handlers.

(** ** Further specification-side notions *)

(** Value of a string of hexadecimal digits. *)
Definition hex_digit_value (c : Z) : Z :=
  if (48 <=? c) && (c <=? 57) then c - 48
  else if (97 <=? c) && (c <=? 102) then c - 97 + 10
  else c - 65 + 10.

Definition is_hex_digit (c : Z) : bool :=
  ((48 <=? c) && (c <=? 57)) || ((97 <=? c) && (c <=? 102))
  || ((65 <=? c) && (c <=? 70)).

Definition hex_value (digits : list Z) : Z :=
  fold_left (fun acc c => 16 * acc + hex_digit_value c) digits 0.

(** What the .nip reader makes of one entry byte in standard mode. *)
Definition decode_standard (p1 : Z) : Colour := unpack_colour p1 (u8 (derived_bit p1)).

(** Little-endian 16-bit field at offset [k] of a file. *)
Definition field16 (file : list Z) (k : nat) : Z := nth k file 0 + 256 * nth (S k) file 0.

(* ====================================================================== *)
(** * Part II: properties *)
(* ====================================================================== *)

(** ** The quantiser *)

Lemma table_at_app_l pre tl k :
  0 <= k < Z.of_nat (length pre) -> table_at (pre ++ tl) k = table_at pre k.
Proof. intros H. unfold table_at. apply app_nth1. lia. Qed.

Lemma table_at_app_mid pre t tl :
  table_at (pre ++ t :: tl) (Z.of_nat (length pre)) = t.
Proof.
  unfold table_at. rewrite Nat2Z.id, app_nth2, Nat.sub_diag by lia. reflexivity.
Qed.

Lemma reduce_loop_inv tl : forall pre v minIdx minDiff,
  scan_inv pre v minIdx minDiff ->
  (exists k, 0 <= k < Z.of_nat (length (pre ++ tl)) /\ table_diff (pre ++ tl) v k < 255) ->
  nearest_lowest (pre ++ tl) v (reduce_loop tl v (Z.of_nat (length pre)) minIdx minDiff).
Proof.
  induction tl as [|t tl IH]; intros pre v mi md [Hseen Hbest] Hex; cbn [reduce_loop].
  - rewrite app_nil_r in *. destruct Hex as (k & Hk & Hlt).
    destruct Hbest as [[-> ->]|(Hmd & Hmi & Hd & Hfirst)].
    + destruct (Hseen k Hk). lia.
    + repeat split; try lia.
      * intros j Hj. destruct (Hseen j Hj). lia.
      * intros j Hj. specialize (Hfirst j Hj). lia.
  - assert (Hlen : Z.of_nat (length (pre ++ [t])) = Z.of_nat (length pre) + 1)
      by (rewrite length_app; cbn; lia).
    assert (Hprev : forall k, 0 <= k < Z.of_nat (length pre) ->
              table_diff (pre ++ [t]) v k = table_diff pre v k)
      by (intros; unfold table_diff; now rewrite table_at_app_l).
    assert (Hnew : table_diff (pre ++ [t]) v (Z.of_nat (length pre)) = Z.abs (v - t))
      by (unfold table_diff; now rewrite table_at_app_mid).
    assert (Hprevf : forall k, 0 <= k < Z.of_nat (length pre) ->
              table_diff (pre ++ t :: tl) v k = table_diff pre v k)
      by (intros; unfold table_diff; now rewrite table_at_app_l).
    assert (Hnewf : table_diff (pre ++ t :: tl) v (Z.of_nat (length pre)) = Z.abs (v - t))
      by (unfold table_diff; now rewrite table_at_app_mid).
    destruct (Z.eqb_spec 0 (Z.abs (v - t))) as [Hz|Hnz].
    + (* exact match: break *)
      repeat split.
      * lia.
      * rewrite length_app; cbn; lia.
      * intros j Hj. rewrite Hnewf. unfold table_diff. lia.
      * intros j Hj. rewrite Hnewf, Hprevf by lia. destruct (Hseen j); lia.
    + replace (pre ++ t :: tl) with ((pre ++ [t]) ++ tl) in * by (rewrite <- app_assoc; reflexivity).
      replace (Z.of_nat (length pre) + 1) with (Z.of_nat (length (pre ++ [t]))) by lia.
      destruct (Z.ltb_spec (Z.abs (v - t)) md) as [Hlt|Hge]; apply IH; auto.
      * split.
        -- intros k Hk. destruct (Z.eq_dec k (Z.of_nat (length pre))) as [->|Hne].
           ++ rewrite Hnew. lia.
           ++ rewrite Hprev by lia. destruct (Hseen k); lia.
        -- right. repeat split; try lia.
           intros k Hk. rewrite Hprev by lia. destruct (Hseen k); lia.
      * split.
        -- intros k Hk. destruct (Z.eq_dec k (Z.of_nat (length pre))) as [->|Hne].
           ++ rewrite Hnew. lia.
           ++ rewrite Hprev by lia. destruct (Hseen k); lia.
        -- destruct Hbest as [[? ?]|(Hmd & Hmi & Hd & Hfirst)]; [left; auto|right].
           repeat split; try lia.
           ++ rewrite Hprev by lia. exact Hd.
           ++ intros k Hk. rewrite Hprev by lia. auto.
Qed.

Lemma scan_inv_init v : scan_inv [] v 0 255.
Proof. split; [cbn; lia | now left]. Qed.

Lemma reduce_loop_nearest table v :
  (exists k, 0 <= k < Z.of_nat (length table) /\ table_diff table v k < 255) ->
  nearest_lowest table v (reduce_loop table v 0 0 255).
Proof.
  intros Hex. exact (reduce_loop_inv table [] v 0 255 (scan_inv_init v) Hex).
Qed.

Lemma gfxReduce3_nearest v :
  0 <= v <= 255 -> nearest_lowest kColour_3bit v (gfxReduce3 v).
Proof.
  intros Hv. unfold gfxReduce3.
  assert (Hn : nearest_lowest kColour_3bit v (reduce_loop kColour_3bit v 0 0 255)).
  { apply reduce_loop_nearest. change (Z.of_nat (length kColour_3bit)) with 8.
    destruct (Z.eq_dec v 255) as [->|Hne].
    - exists 7. split; [lia | vm_compute; reflexivity].
    - exists 0. split; [lia |].
      change (table_diff kColour_3bit v 0) with (Z.abs (v - 0)). lia. }
  unfold u8. rewrite Z.mod_small; [exact Hn|].
  destruct Hn as [Hr _]. change (Z.of_nat (length kColour_3bit)) with 8 in Hr. lia.
Qed.

Lemma gfxReduce2_nearest v :
  0 <= v <= 255 -> nearest_lowest kColour_2bit v (gfxReduce2 v).
Proof.
  intros Hv. unfold gfxReduce2.
  assert (Hn : nearest_lowest kColour_2bit v (reduce_loop kColour_2bit v 0 0 255)).
  { apply reduce_loop_nearest. change (Z.of_nat (length kColour_2bit)) with 4.
    destruct (Z.eq_dec v 255) as [->|Hne].
    - exists 3. split; [lia | vm_compute; reflexivity].
    - exists 0. split; [lia |].
      change (table_diff kColour_2bit v 0) with (Z.abs (v - 0)). lia. }
  unfold u8. rewrite Z.mod_small; [exact Hn|].
  destruct Hn as [Hr _]. change (Z.of_nat (length kColour_2bit)) with 4 in Hr. lia.
Qed.

(** The four byte values lying midway between two entries of the 3-bit table
    go to the lower index; the 2-bit table has no midway byte. *)
Example gfxReduce3_ties :
  map gfxReduce3 [18; 91; 164; 237] = [0; 2; 4; 6].
Proof. reflexivity. Qed.

(** C3.  For every byte [v], [gfxReduce3 v] is an index 0..7 of the 3-bit
    table whose entry is at minimal absolute difference from [v], and every
    lower index is strictly farther (ties go to the lowest index); the same
    holds for [gfxReduce2] and the 2-bit table with indices 0..3.  Both are
    functions defined on every byte. *)
Theorem quantiser_nearest_lowest (v : Z) :
  0 <= v <= 255 ->
  nearest_lowest kColour_3bit v (gfxReduce3 v) /\
  nearest_lowest kColour_2bit v (gfxReduce2 v).
Proof.
  intros Hv. split; [apply gfxReduce3_nearest | apply gfxReduce2_nearest]; exact Hv.
Qed.

Lemma quantiser_nearest_lowest_witness :
  0 <= 18 <= 255 /\
  nearest_lowest kColour_3bit 18 (gfxReduce3 18) /\
  nearest_lowest kColour_2bit 18 (gfxReduce2 18).
Proof. split; [lia | apply (quantiser_nearest_lowest 18); lia]. Defined.

(** ** The nearest-entry search *)

Lemma table3_range i : 0 <= table_at kColour_3bit i <= 255.
Proof.
  unfold table_at.
  destruct (nth_in_or_default (Z.to_nat i) kColour_3bit 0) as [Hin| ->]; [|lia].
  revert Hin. generalize (nth (Z.to_nat i) kColour_3bit 0). intros z Hin.
  cbn in Hin. intuition lia.
Qed.

Lemma u8_range z : 0 <= u8 z <= 255.
Proof. unfold u8. pose proof (Z.mod_pos_bound z 256). lia. Qed.

Lemma u8_small z : 0 <= z <= 255 -> u8 z = z.
Proof. intros. unfold u8. apply Z.mod_small. lia. Qed.

Lemma sq_diff_range t x :
  0 <= t <= 255 -> 0 <= x <= 255 -> 0 <= (t - x) * (t - x) <= 65025.
Proof.
  intros Ht Hx.
  assert (0 <= (255 - (t - x)) * (255 + (t - x))) by (apply Z.mul_nonneg_nonneg; lia).
  pose proof (Z.square_nonneg (t - x)). lia.
Qed.

Lemma dist_range c r g b :
  0 <= r <= 255 -> 0 <= g <= 255 -> 0 <= b <= 255 ->
  0 <= dist c r g b < 256 * 256 * 256.
Proof.
  intros Hr Hg Hb. unfold dist.
  pose proof (table3_range (m_red c)). pose proof (table3_range (m_green c)).
  pose proof (table3_range (m_blue c)).
  pose proof (sq_diff_range (table_at kColour_3bit (m_red c)) r).
  pose proof (sq_diff_range (table_at kColour_3bit (m_green c)) g).
  pose proof (sq_diff_range (table_at kColour_3bit (m_blue c)) b).
  cbv zeta. lia.
Qed.

Section Search.
Variables (cs : list Colour) (trans r g b x0 : Z).
Hypothesis Hr : 0 <= r <= 255.
Hypothesis Hg : 0 <= g <= 255.
Hypothesis Hb : 0 <= b <= 255.

Lemma search_keeps_inv tl : forall pre st,
  cs = pre ++ tl ->
  search_inv cs trans r g b x0 (Z.of_nat (length pre)) st ->
  search_inv cs trans r g b x0 (Z.of_nat (length cs)) (search tl (Z.of_nat (length pre)) trans r g b st).
Proof.
  unfold search_inv; cbv zeta.
  induction tl as [|c tl IH]; intros pre st Hcs Hinv; cbn [search].
  - replace (length cs) with (length pre); [exact Hinv|].
    rewrite Hcs, app_nil_r. reflexivity.
  - assert (Hc : entry_dist cs r g b (Z.of_nat (length pre)) = dist c r g b).
    { unfold entry_dist. rewrite Nat2Z.id, Hcs, app_nth2, Nat.sub_diag by lia. reflexivity. }
    assert (Hlen : Z.of_nat (length (pre ++ [c])) = Z.of_nat (length pre) + 1)
      by (rewrite length_app; cbn; lia).
    rewrite <- Hlen. apply IH; [rewrite <- app_assoc; exact Hcs|].
    rewrite Hlen. pose proof (dist_range c r g b Hr Hg Hb) as Hd.
    destruct (Z.eqb_spec (Z.of_nat (length pre)) trans) as [Ht|Ht].
    + destruct Hinv as [[Hst Hno]|(m & Hm & Hmt & Hst & Hmin)].
      * left. split; [exact Hst|]. intros j Hj.
        destruct (Z.eq_dec j (Z.of_nat (length pre))); [lia|apply Hno; lia].
      * right. exists m. repeat split; try lia; try exact Hst;
          destruct (Z.eq_dec j (Z.of_nat (length pre))); try lia;
          apply Hmin; lia.
    + destruct Hinv as [[Hst Hno]|(m & Hm & Hmt & Hst & Hmin)]; subst st; cbn [fst].
      * destruct (Z.ltb_spec (dist c r g b) (256 * 256 * 256)) as [_|Hge]; [|lia].
        right. exists (Z.of_nat (length pre)). rewrite Hc.
        repeat split; try lia;
          destruct (Z.eq_dec j (Z.of_nat (length pre))) as [->|Hne];
          try lia; specialize (Hno j); lia.
      * destruct (Z.ltb_spec (dist c r g b) (entry_dist cs r g b m)) as [Hlt|Hge].
        -- right. exists (Z.of_nat (length pre)). rewrite Hc.
           repeat split; try lia;
             destruct (Z.eq_dec j (Z.of_nat (length pre))) as [->|Hne];
             try lia; destruct (Hmin j); lia.
        -- right. exists m. repeat split; try lia;
             destruct (Z.eq_dec j (Z.of_nat (length pre))) as [->|Hne];
             try lia; destruct (Hmin j); lia.
Qed.
End Search.

Lemma search_result cs trans r g b x0 :
  0 <= r <= 255 -> 0 <= g <= 255 -> 0 <= b <= 255 ->
  search_inv cs trans r g b x0 (Z.of_nat (length cs))
             (search cs 0 trans r g b (256 * 256 * 256, x0)).
Proof.
  intros Hr Hg Hb.
  apply (search_keeps_inv cs trans r g b x0 Hr Hg Hb cs [] _ eq_refl).
  left. split; [reflexivity | cbn; lia].
Qed.

Lemma channel_ranges px :
  0 <= red_of px <= 255 /\ 0 <= green_of px <= 255 /\ 0 <= blue_of px <= 255.
Proof. unfold red_of, green_of, blue_of. repeat split; apply u8_range. Qed.

(** The spec's example: with the transparent index set to 5, an opaque pixel
    of exactly entry 5's colour (0, 36, 109) gets index 1, not 5. *)
Example classify_skips_transparent :
  classify (setTransparent 5 Palette_default) 0 0xff6d2400 = 1.
Proof. vm_compute. reflexivity. Qed.

(** C1.  For an opaque pixel and a palette holding a populated index other
    than the transparent one, the index computed for the pixel is a populated
    index other than the transparent one, its entry (expanded through the
    3-bit table) is at minimal squared distance from the raw r, g, b among
    all such indices, and every lower such index is strictly farther. *)
Theorem classify_opaque_nearest (p : Palette) (x0 px : Z) :
  Palette_wf p ->
  (exists i, candidate p i) ->
  alpha_of px = 255 ->
  nearest_entry p px (classify p x0 px).
Proof.
  intros (Hlen & _ & _) (i & Hi & Hit) Ha.
  unfold classify. rewrite Ha. cbn [Z.eqb Pos.eqb negb].
  destruct (channel_ranges px) as (Hr & Hg & Hb).
  pose proof (search_result (m_colours p) (getTransColour p) _ _ _ (u8 x0) Hr Hg Hb) as H.
  unfold numColours in Hi.
  destruct H as [[_ Hno]|(m & Hm & Hmt & -> & Hmin)].
  - exfalso. apply Hit, Hno, Hi.
  - cbn [snd]. rewrite u8_small by lia.
    unfold nearest_entry, candidate, numColours, entry. fold (entry_dist (m_colours p)).
    repeat split; try lia.
    + intros j [Hj Hjt]. apply Hmin; assumption.
    + intros j [Hj Hjt] Hlt. apply Hmin; assumption.
Qed.

Lemma classify_opaque_nearest_witness :
  nearest_entry (mkPalette [mkColour 0 0 0; mkColour 7 7 7; mkColour 7 0 0] 1)
    0xffffffff
    (classify (mkPalette [mkColour 0 0 0; mkColour 7 7 7; mkColour 7 0 0] 1)
              0 0xffffffff).
Proof.
  apply classify_opaque_nearest.
  - split; [cbn; lia|]. split; [|cbn; lia].
    repeat constructor; cbn; lia.
  - exists 0. split; [cbn; lia | cbn; lia].
  - reflexivity.
Defined.

(** C2.  A pixel whose alpha byte is not 255 gets the palette's transparent
    index, whatever its r, g, b, whatever the palette's entries, and whatever
    [x] held before: no search takes place. *)
Theorem classify_non_opaque (p : Palette) (x0 px : Z) :
  alpha_of px <> 255 ->
  classify p x0 px = getTransColour p.
Proof.
  intros Ha. unfold classify.
  destruct (Z.eqb_spec (alpha_of px) 255) as [E|_]; [contradiction | reflexivity].
Qed.

Lemma classify_non_opaque_witness :
  classify Palette_default 0 0x80123456 = getTransColour Palette_default.
Proof. apply classify_non_opaque. vm_compute. discriminate. Defined.

(** ** The conversion loops *)

Lemma int_wrap_fits z : INT_MIN <= z <= INT_MAX -> int_wrap z = z.
Proof.
  unfold INT_MIN, INT_MAX, int_wrap. intros H. rewrite Z.mod_small by lia. lia.
Qed.

Lemma size_t_fits z : 0 <= z <= INT_MAX -> size_t z = z.
Proof. unfold INT_MAX, size_t. intros H. apply Z.mod_small. lia. Qed.

Lemma map_seq_from {A} (f : nat -> A) a n :
  map f (seq a n) = map (fun j => f (a + j)%nat) (seq 0 n).
Proof.
  induction a as [|a IH] in f |- *; [reflexivity|].
  rewrite <- seq_shift, map_map, IH. reflexivity.
Qed.

Section Conversion.
Variable uninit : string -> nat -> Z.
Variables (p : Palette) (img : Image).

Lemma convert_cols_8bit n : forall col s idx dst,
  convert_cols uninit p img false n col s idx dst
  = ((s + n)%nat, dst ++ map (index_at uninit p img) (seq s n)).
Proof.
  induction n as [|n IH]; intros col s idx dst; cbn [convert_cols seq map].
  - now rewrite Nat.add_0_r, app_nil_r.
  - rewrite IH, <- app_assoc. cbn [app]. f_equal. lia.
Qed.

Lemma convert_rows_8bit n : forall s dst,
  convert_rows uninit p img false n s dst
  = dst ++ map (index_at uninit p img) (seq s (n * Z.to_nat (img_w img))).
Proof.
  induction n as [|n IH]; intros s dst; cbn [convert_rows].
  - cbn. now rewrite app_nil_r.
  - rewrite convert_cols_8bit, IH, <- app_assoc. f_equal.
    cbn [Nat.mul]. rewrite seq_app, map_app. reflexivity.
Qed.


Lemma convert_cols_4bit m : forall col s idx dst,
  0 <= col -> Z.rem col 2 = 0 ->
  convert_cols uninit p img true (2 * m) col s idx dst
  = ((s + 2 * m)%nat, dst ++ map (fun j => pair_at uninit p img (s + 2 * j)) (seq 0 m)).
Proof.
  induction m as [|m IH]; intros col s idx dst Hcol Hrem.
  - cbn. now rewrite Nat.add_0_r, app_nil_r.
  - replace (2 * S m)%nat with (S (S (2 * m))) by lia.
    cbn [convert_cols]. rewrite Hrem. cbn [Z.eqb].
    assert (Hodd : Z.rem (col + 1) 2 = 1).
    { rewrite Z.rem_mod_nonneg in * by lia. rewrite <- Zplus_mod_idemp_l, Hrem. reflexivity. }
    rewrite Hodd. cbn [Z.eqb Pos.eqb].
    rewrite IH.
    + rewrite <- app_assoc. cbn [app seq map]. f_equal; [lia|]. f_equal.
      rewrite Nat.mul_0_r, Nat.add_0_r. f_equal.
      rewrite <- seq_shift, map_map. apply map_ext. intros j. f_equal. lia.
    + lia.
    + rewrite Z.rem_mod_nonneg in * by lia.
      replace (col + 1 + 1) with (col + 1 * 2) by lia. now rewrite Z_mod_plus_full.
Qed.

Lemma convert_rows_4bit n m : forall s dst,
  Z.to_nat (img_w img) = (2 * m)%nat ->
  convert_rows uninit p img true n s dst
  = dst ++ map (fun j => pair_at uninit p img (s + 2 * j)) (seq 0 (n * m)).
Proof.
  intros s dst Hw. revert s dst.
  induction n as [|n IH]; intros s dst; cbn [convert_rows].
  - cbn. now rewrite app_nil_r.
  - rewrite Hw, convert_cols_4bit by (try lia; reflexivity).
    rewrite IH, <- app_assoc. f_equal.
    cbn [Nat.mul]. rewrite seq_app, map_app. f_equal.
    rewrite (map_seq_from _ (0 + m)). apply map_ext. intros j. f_equal. lia.
Qed.

Lemma process_image_8bit :
  0 <= img_w img -> 0 <= img_h img ->
  img_w img * img_h img <= INT_MAX ->
  process_image uninit p false (Some img) true
  = Written (nim_header (img_w img) (img_h img)
             ++ map (index_at uninit p img)
                    (seq 0 (Z.to_nat (img_h img) * Z.to_nat (img_w img)))).
Proof.
  intros Hw Hh Hfit. unfold process_image. cbn [andb negb orb].
  rewrite convert_rows_8bit. cbn [app].
  rewrite length_map, length_seq. cbv zeta.
  rewrite int_wrap_fits by (unfold INT_MIN; nia).
  rewrite size_t_fits by nia.
  replace (Z.of_nat (Z.to_nat (img_h img) * Z.to_nat (img_w img)))
    with (img_w img * img_h img) by lia.
  rewrite Z.eqb_refl. reflexivity.
Qed.

Lemma process_image_4bit m :
  numColours p <= 16 -> img_w img = 2 * Z.of_nat m -> 0 <= img_h img ->
  img_w img * img_h img <= INT_MAX ->
  process_image uninit p true (Some img) true
  = Written (nim_header (img_w img) (img_h img)
             ++ map (fun j => pair_at uninit p img (2 * j)%nat) (seq 0 (Z.to_nat (img_h img) * m))).
Proof.
  intros Hn Hw Hh Hfit. unfold process_image. cbn [andb negb orb].
  destruct (Z.ltb_spec 16 (numColours p)) as [|_]; [lia|].
  assert (Hrem : Z.rem (img_w img) 2 = 0).
  { rewrite Hw, Z.mul_comm. apply Z.rem_mul. lia. }
  rewrite Hrem. cbn [Z.eqb].
  rewrite (convert_rows_4bit _ m) by lia. cbn [app Nat.add].
  rewrite length_map, length_seq. cbv zeta.
  rewrite int_wrap_fits by (unfold INT_MIN; nia).
  replace (Z.quot (img_w img * img_h img) 2) with (Z.of_nat (Z.to_nat (img_h img) * m)).
  - rewrite size_t_fits by nia. rewrite Z.eqb_refl. reflexivity.
  - rewrite Hw. replace (2 * Z.of_nat m * img_h img) with (Z.of_nat m * img_h img * 2) by lia.
    rewrite Z.quot_mul by lia. lia.
Qed.

(** When the product of the dimensions does not fit an [int], the value the
    [assert] compares with [dst.size()] is not the number of bytes of [dst],
    and the [assert] fires. *)
Lemma process_image_overflow_aborts (flag4 out_ok : bool) m :
  0 <= img_w img <= INT_MAX -> 0 <= img_h img <= INT_MAX ->
  INT_MAX < img_w img * img_h img ->
  (flag4 = true -> numColours p <= 16 /\ img_w img = 2 * Z.of_nat m) ->
  process_image uninit p flag4 (Some img) out_ok = Aborted.
Proof.
  intros Hw Hh Hbig H4. unfold process_image, INT_MAX in *.
  assert (Hwrap : -2147483648 <= int_wrap (img_w img * img_h img) < 2147483648).
  { unfold int_wrap.
    pose proof (Z.mod_pos_bound (img_w img * img_h img + 2147483648) 4294967296). lia. }
  assert (Hprod : img_w img * img_h img < 4611686018427387904) by nia.
  assert (Hsz : forall z, -2147483648 <= z < 2147483648 ->
                 size_t z = z \/ size_t z = z + 18446744073709551616 /\ z < 0).
  { intros z Hz. unfold size_t. change (2 ^ 64) with 18446744073709551616.
    destruct (Z.neg_nonneg_cases z) as [Hneg|Hpos].
    - right. split; [|assumption].
      replace z with (z + 18446744073709551616 - 1 * 18446744073709551616) at 1 by lia.
      rewrite Zminus_mod, Z_mod_mult, Z.sub_0_r, Z.mod_mod by lia.
      apply Z.mod_small. lia.
    - left. apply Z.mod_small. lia. }
  cbv zeta. set (wh := int_wrap (img_w img * img_h img)) in *.
  destruct flag4.
  - destruct (H4 eq_refl) as [Hn Hw2]. cbn [andb negb orb].
    destruct (Z.ltb_spec 16 (numColours p)) as [|_]; [lia|].
    assert (Hrem : Z.rem (img_w img) 2 = 0).
    { rewrite Hw2, Z.mul_comm. apply Z.rem_mul. lia. }
    rewrite Hrem. cbn [Z.eqb].
    rewrite (convert_rows_4bit _ m) by lia. cbn [app Nat.add].
    rewrite length_map, length_seq.
    assert (Hq : -1073741824 <= Z.quot wh 2 < 1073741824).
    { Z.to_euclidean_division_equations. lia. }
    assert (Hsize : 1073741824 <= Z.of_nat (Z.to_nat (img_h img) * m)) by nia.
    destruct (Z.eqb_spec (Z.of_nat (Z.to_nat (img_h img) * m)) (size_t (Z.quot wh 2)))
      as [E|_]; [exfalso | reflexivity].
    destruct (Hsz (Z.quot wh 2) ltac:(lia)) as [E'|[E' Hneg]]; nia.
  - cbn [andb negb orb].
    rewrite convert_rows_8bit. cbn [app].
    rewrite length_map, length_seq, ?orb_false_r.
    destruct (Z.eqb_spec (Z.of_nat (Z.to_nat (img_h img) * Z.to_nat (img_w img))) (size_t wh))
      as [E|_]; [exfalso | reflexivity].
    destruct (Hsz wh ltac:(lia)) as [E'|[E' Hneg]]; nia.
Qed.

End Conversion.

(** In 8-bit mode the byte at offset [8 + k] of the file is the index
    computed for pixel [k]. *)
Lemma process_image_8bit_byte uninit (p : Palette) (img : Image) (k : nat) :
  0 <= img_w img -> 0 <= img_h img ->
  img_w img * img_h img <= INT_MAX ->
  (k < Z.to_nat (img_h img) * Z.to_nat (img_w img))%nat ->
  exists file,
    process_image uninit p false (Some img) true = Written file
    /\ nth (8 + k) file 0 = index_at uninit p img k.
Proof.
  intros Hw Hh Hfit Hk. eexists. split; [apply process_image_8bit; assumption|].
  assert (Hhdr : length (nim_header (img_w img) (img_h img)) = 8%nat) by reflexivity.
  rewrite app_nth2 by lia. rewrite Hhdr.
  replace (8 + k - 8)%nat with k by lia.
  rewrite (nth_indep _ 0 (index_at uninit p img 0)) by (now rewrite length_map, length_seq).
  rewrite map_nth, seq_nth by assumption. reflexivity.
Qed.

Lemma pack_nibbles_wraps hi lo :
  pack_nibbles hi lo = (16 * (hi mod 16) + lo) mod 256.
Proof.
  unfold pack_nibbles, u8. rewrite Z.shiftl_mul_pow2 by lia.
  change (2 ^ 4) with 16. rewrite (Z.mul_comm hi 16).
  change 256 with (16 * 16) at 1. rewrite Z.mul_mod_distr_l by lia. reflexivity.
Qed.


(** The spec's example: entries 3 and 7 of the default ramp are (0, 0, 7) and
    (0, 1, 7), expanded (0, 0, 255) and (0, 36, 255). *)
Example convert_two_pixels_8bit uninit :
  process_image uninit Palette_default false
    (Some (mkImage 2 1 [0xffff0000; 0xffff2400])) true
  = Written (lit "NIM0" ++ [2; 0; 1; 0] ++ [3; 7]).
Proof. rewrite process_image_8bit by (vm_compute; discriminate). vm_compute. reflexivity. Qed.

Example convert_two_pixels_4bit uninit :
  process_image uninit (mkPalette (firstn 16 (m_colours Palette_default)) 0xe3) true
    (Some (mkImage 2 1 [0xffff0000; 0xffff2400])) true
  = Written (lit "NIM0" ++ [2; 0; 1; 0] ++ [0x37]).
Proof.
  rewrite (process_image_4bit _ _ _ 1%nat)
    by (try reflexivity; vm_compute; discriminate).
  vm_compute. reflexivity.
Qed.

(** A 65534 by 32770 image has [2 ^ 31 + 2 ^ 16 - 4] pixels, which is not a
    value of [int]: the [assert] stops the conversion. *)
Example large_image_aborts uninit pixels :
  process_image uninit (mkPalette (firstn 16 (m_colours Palette_default)) 0xe3) true
    (Some (mkImage 65534 32770 pixels)) true
  = Aborted.
Proof.
  apply (process_image_overflow_aborts uninit _ _ true true (Z.to_nat 32767));
    unfold INT_MAX; cbn [img_w img_h]; try lia.
  intros _. split; [vm_compute; discriminate | rewrite Z2Nat.id by lia; reflexivity].
Qed.

(** C8.  With flag 4, a palette of more than 16 entries, or an image of odd
    width, makes [process_image] end with an error message and no file,
    whatever the pixels are: the palette is checked first and gives
    PaletteTooLarge, the width is checked second and gives OddWidthFor4Bit. *)
Theorem four_bit_preconditions uninit (p : Palette) (img : Image) (out_ok : bool) :
  16 < numColours p \/ (0 <= img_w img /\ Z.odd (img_w img) = true) ->
  process_image uninit p true (Some img) out_ok
  = Failed (if 16 <? numColours p then PaletteTooLarge else OddWidthFor4Bit).
Proof.
  intros H. unfold process_image. cbn [andb].
  destruct (Z.ltb_spec 16 (numColours p)) as [Hbig|Hsmall]; [reflexivity|].
  destruct H as [H|[Hw Hodd]]; [lia|].
  rewrite Z.rem_mod_nonneg, Zmod_odd, Hodd by lia. reflexivity.
Qed.

Lemma four_bit_preconditions_witness :
  process_image (fun _ _ => 0) (mkPalette (firstn 17 (m_colours Palette_default)) 0xe3)
    true (Some (mkImage 4 1 [0; 0; 0; 0])) true = Failed PaletteTooLarge
  /\ process_image (fun _ _ => 0) (mkPalette (firstn 16 (m_colours Palette_default)) 0xe3)
    true (Some (mkImage 5 1 [0; 0; 0; 0; 0])) true = Failed OddWidthFor4Bit.
Proof.
  split.
  - apply (four_bit_preconditions (fun _ _ => 0)
             (mkPalette (firstn 17 (m_colours Palette_default)) 0xe3)
             (mkImage 4 1 [0; 0; 0; 0]) true).
    left. vm_compute. reflexivity.
  - apply (four_bit_preconditions (fun _ _ => 0)
             (mkPalette (firstn 16 (m_colours Palette_default)) 0xe3)
             (mkImage 5 1 [0; 0; 0; 0; 0]) true).
    right. split; [vm_compute; discriminate | reflexivity].
Defined.

(** C9 (what the code does).  An image of width 65537 and height 1 is
    converted without any error: a file is written whose header holds width
    1 (65537 modulo 65536) in front of 65537 bytes of pixel data. *)
Theorem oversized_width_is_truncated uninit (p : Palette) (pixels : list Z) :
  exists data,
    process_image uninit p false (Some (mkImage 65537 1 pixels)) true
    = Written (lit "NIM0" ++ [1; 0; 1; 0] ++ data)
    /\ Z.of_nat (length data) = 65537.
Proof.
  set (img := mkImage 65537 1 pixels).
  exists (map (index_at uninit p img)
              (seq 0 (Z.to_nat (img_h img) * Z.to_nat (img_w img)))).
  split.
  - rewrite process_image_8bit by (unfold img, INT_MAX; cbn [img_w img_h]; lia).
    change (nim_header (img_w img) (img_h img)) with ((lit "NIM0" ++ [1; 0; 1; 0])).
    rewrite <- app_assoc. reflexivity.
  - rewrite length_map, length_seq, Nat2Z.inj_mul.
    unfold img; cbn [img_w img_h]. rewrite !Z2Nat.id by lia. reflexivity.
Qed.

(** The header of every 8-bit conversion holds the dimensions modulo 65536. *)
Lemma header_dimensions_wrap uninit (p : Palette) (img : Image) :
  0 <= img_w img -> 0 <= img_h img ->
  img_w img * img_h img <= INT_MAX ->
  exists data,
    process_image uninit p false (Some img) true
    = Written (lit "NIM0"
               ++ [(img_w img mod 65536) mod 256; (img_w img mod 65536) / 256;
                   (img_h img mod 65536) mod 256; (img_h img mod 65536) / 256]
               ++ data).
Proof.
  intros Hw Hh Hfit. eexists. rewrite process_image_8bit by assumption. reflexivity.
Qed.

Example pack_default_transparent : pack_nibbles 0xe3 0xe3 = 0x13.
Proof. reflexivity. Qed.

Lemma index_at_non_opaque uninit (p : Palette) (img : Image) (k : nat) :
  alpha_of (pixel_at uninit img k) <> 255 -> index_at uninit p img k = getTransColour p.
Proof.
  intros Ha. unfold index_at, classify.
  destruct (Z.eqb_spec (alpha_of (pixel_at uninit img k)) 255) as [E|_];
    [contradiction | reflexivity].
Qed.

(** C10.  With flag 4, a palette of at most 16 entries, an even width and a
    pixel count [w * h] within [int] (so that the [assert] on the size of
    [dst] holds), the conversion succeeds without any check on the range of
    an index: the byte written for the pixels at offsets 2j and 2j+1 is, in
    8-bit arithmetic, the first index modulo 16 in the high nibble plus the
    second index; for two non-opaque pixels both indices are the transparent
    index as it is, so that the default 0xe3 is written as 0x13. *)
Theorem four_bit_packing_wraps uninit (p : Palette) (img : Image) (m : nat) :
  numColours p <= 16 ->
  img_w img = 2 * Z.of_nat m ->
  0 <= img_h img ->
  img_w img * img_h img <= INT_MAX ->
  exists data,
    process_image uninit p true (Some img) true
    = Written (nim_header (img_w img) (img_h img) ++ data)
    /\ Z.of_nat (length data) = img_w img * img_h img / 2
    /\ forall j, (j < length data)%nat ->
         let hi := index_at uninit p img (2 * j) in
         let lo := index_at uninit p img (2 * j + 1) in
         nth j data 0 = (16 * (hi mod 16) + lo) mod 256
         /\ (alpha_of (pixel_at uninit img (2 * j)) <> 255 ->
             alpha_of (pixel_at uninit img (2 * j + 1)) <> 255 ->
             nth j data 0
             = (16 * (getTransColour p mod 16) + getTransColour p) mod 256).
Proof.
  intros Hn Hw Hh Hfit. eexists.
  split; [apply (process_image_4bit _ _ _ m); assumption|].
  rewrite length_map, length_seq. split.
  - rewrite Hw. replace (2 * Z.of_nat m * img_h img) with (Z.of_nat m * img_h img * 2) by lia.
    rewrite Z.div_mul by lia. lia.
  - intros j Hj. cbv zeta.
    rewrite (nth_indep _ 0 (pair_at uninit p img (2 * 0))) by (now rewrite length_map, length_seq).
    rewrite (map_nth (fun k => pair_at uninit p img (2 * k))), seq_nth by assumption.
    cbn [Nat.add]. unfold pair_at. rewrite pack_nibbles_wraps.
    replace (S (2 * j)) with (2 * j + 1)%nat by lia.
    split; [reflexivity|]. intros Ha Hb.
    rewrite !index_at_non_opaque by assumption. reflexivity.
Qed.

Lemma four_bit_packing_wraps_witness :
  exists data,
    process_image (fun _ _ => 0) (mkPalette [mkColour 0 0 0] 0xe3) true
      (Some (mkImage 2 1 [0; 0])) true
    = Written (nim_header 2 1 ++ data)
    /\ nth 0 data 0 = 0x13.
Proof.
  destruct (four_bit_packing_wraps (fun _ _ => 0) (mkPalette [mkColour 0 0 0] 0xe3)
              (mkImage 2 1 [0; 0]) 1%nat) as (data & Hrun & Hlen & Hbytes).
  - cbn. lia.
  - reflexivity.
  - cbn. lia.
  - vm_compute. discriminate.
  - exists data. split; [exact Hrun|].
    assert (Hj : (0 < length data)%nat) by (cbn in Hlen; lia).
    destruct (Hbytes 0%nat Hj) as [_ Htrans].
    rewrite Htrans; [reflexivity | vm_compute; discriminate | vm_compute; discriminate].
Defined.

(** ** Palettes the program constructs *)

Lemma three_bits_of z k : 0 <= k ->
  0 <= Z.shiftr (Z.land z (Z.shiftl 7 k)) k <= 7.
Proof.
  intros Hk. rewrite Z.shiftr_land, Z.shiftr_shiftl_l, Z.sub_diag by lia.
  change (Z.shiftl 7 0) with (Z.ones 3). rewrite Z.land_ones by lia.
  change (2 ^ 3) with 8. pose proof (Z.mod_pos_bound (Z.shiftr z k) 8). lia.
Qed.

Lemma two_bits_cases z :
  Z.land z 3 = 0 \/ Z.land z 3 = 1 \/ Z.land z 3 = 2 \/ Z.land z 3 = 3.
Proof.
  change (Z.land z 3) with (Z.land z (Z.ones 2)). rewrite Z.land_ones by lia.
  change (2 ^ 2) with 4. pose proof (Z.mod_pos_bound z 4). lia.
Qed.

Lemma one_bit_cases z : Z.land z 1 = 0 \/ Z.land z 1 = 1.
Proof.
  change (Z.land z 1) with (Z.land z (Z.ones 1)). rewrite Z.land_ones by lia.
  change (2 ^ 1) with 2. pose proof (Z.mod_pos_bound z 2). lia.
Qed.

Lemma unpack_colour_wf p1 p2 : Colour_wf (unpack_colour p1 p2).
Proof.
  unfold unpack_colour, Colour_wf. cbn [m_red m_green m_blue].
  pose proof (three_bits_of p1 5) as Hr. pose proof (three_bits_of p1 2) as Hg.
  change (Z.shiftl 7 5) with 224 in Hr. change (Z.shiftl 7 2) with 28 in Hg.
  assert (Hb : 0 <= Z.lor (Z.shiftl (Z.land p1 3) 1) (Z.land p2 1) <= 7).
  { destruct (two_bits_cases p1) as [-> |[-> |[-> | ->]]],
             (one_bit_cases p2) as [-> | ->]; cbn; lia. }
  rewrite !u8_small by lia. lia.
Qed.

Lemma default_colour_wf i : Colour_wf (default_colour i).
Proof.
  unfold default_colour, Colour_wf. cbn [m_red m_green m_blue].
  pose proof (three_bits_of i 5) as Hr. pose proof (three_bits_of i 2) as Hg.
  change (Z.shiftl 7 5) with 224 in Hr. change (Z.shiftl 7 2) with 28 in Hg.
  assert (Hb : 0 <= Z.shiftl (Z.land i 3) 1
                    + Z.lor (Z.shiftr (Z.land i 2) 1) (Z.land i 1) <= 7).
  { replace (Z.land i 2) with (Z.land (Z.land i 3) 2)
      by (now rewrite <- Z.land_assoc).
    replace (Z.land i 1) with (Z.land (Z.land i 3) 1)
      by (now rewrite <- Z.land_assoc).
    destruct (two_bits_cases i) as [-> |[-> |[-> | ->]]]; cbn; lia. }
  rewrite !u8_small by lia. lia.
Qed.

Lemma Palette_default_wf : Palette_wf Palette_default.
Proof.
  split; [cbn [Palette_default m_colours]; rewrite length_map, length_seq; lia|].
  split; [|cbn; lia].
  cbn [Palette_default m_colours]. apply Forall_forall. intros c Hc.
  apply in_map_iff in Hc. destruct Hc as (i & <- & _). apply default_colour_wf.
Qed.

Lemma gfxReduce3_wf v : 0 <= gfxReduce3 (u8 v) <= 7.
Proof.
  destruct (gfxReduce3_nearest (u8 v) (u8_range v)) as [H _].
  change (Z.of_nat (length kColour_3bit)) with 8 in H. lia.
Qed.

Section Channels.
Variable uninit : string -> nat -> Z.

Lemma nip_loop_wf flags n : forall i f acc,
  Forall Colour_wf acc -> Forall Colour_wf (fst (nip_loop uninit flags n i f acc)).
Proof.
  induction n as [|n IH]; intros i f acc Hacc; cbn [nip_loop]; [exact Hacc|].
  destruct (read 1 f) as [got1 f1].
  destruct (negb (Z.land flags 1 =? 0)).
  - destruct (read 1 f1) as [got2 f2]. apply IH, Forall_app. split; [exact Hacc|].
    apply Forall_cons; [apply unpack_colour_wf | constructor].
  - apply IH, Forall_app. split; [exact Hacc|].
    apply Forall_cons; [apply unpack_colour_wf | constructor].
Qed.

Lemma pal_loop_wf fuel : forall num i f acc colours,
  Forall Colour_wf acc ->
  pal_loop uninit fuel num i f acc = PalDone colours -> Forall Colour_wf colours.
Proof.
  induction fuel as [|fuel IH]; intros num i f acc colours Hacc; cbn [pal_loop];
    [discriminate|].
  destruct (eofbit f); [intros [= <-]; exact Hacc|].
  destruct (extract_int _ f) as [red f1].
  destruct (extract_int _ f1) as [green f2].
  destruct (extract_int _ f2) as [blue f3].
  destruct (_ || _); [discriminate|].
  assert (Hacc' : Forall Colour_wf
            (acc ++ [mkColour (gfxReduce3 (u8 red)) (gfxReduce3 (u8 green))
                              (gfxReduce3 (u8 blue))])).
  { apply Forall_app. split; [exact Hacc|].
    apply Forall_cons; [|constructor].
    unfold Colour_wf. cbn [m_red m_green m_blue].
    pose proof (gfxReduce3_wf red). pose proof (gfxReduce3_wf green).
    pose proof (gfxReduce3_wf blue). lia. }
  destruct (Z.of_nat (S i) =? num); [intros [= <-]; exact Hacc'|].
  apply IH. exact Hacc'.
Qed.

(** Every palette the constructor completes holds 3-bit channel indices: the
    tables of [process_image] are indexed inside their bounds. *)
Lemma constructed_channels_wf fuel f p :
  Palette_from_stream uninit fuel f = Constructed p -> Forall Colour_wf (m_colours p).
Proof.
  unfold Palette_from_stream.
  destruct (read 4 f) as [got f1].
  destruct (_ =? 0x3050494e).
  - destruct (read 1 f1) as [gotn f2]. destruct (read 1 f2) as [gotf f3].
    destruct (nip_loop _ _ _ _ _ _) as [colours f4] eqn:E.
    destruct (read 1 f4) as [gott f5]. intros [= <-]. cbn [m_colours].
    change colours with (fst (colours, f4)). rewrite <- E. apply nip_loop_wf. constructor.
  - destruct (extract_string [] _) as [line1 f3].
    destruct (bytes_eqb line1 _); [|intros [= <-]; constructor].
    destruct (extract_string line1 f3) as [line2 f4].
    destruct (bytes_eqb line2 _); [|intros [= <-]; constructor].
    destruct (extract_string line2 f4) as [line3 f5].
    destruct (stoi line3) as [n|]; [|discriminate].
    destruct (pal_loop _ _ _ _ _ _) as [colours| |] eqn:E; try discriminate.
    destruct (negb _); [discriminate|]. intros [= <-]. cbn [m_colours].
    eapply pal_loop_wf; [|exact E]. constructor.
Qed.

End Channels.

(** ** The .nip codec *)

Lemma index_cases z : 0 <= z <= 7 ->
  z = 0 \/ z = 1 \/ z = 2 \/ z = 3 \/ z = 4 \/ z = 5 \/ z = 6 \/ z = 7.
Proof. lia. Qed.

Lemma unpack_pack_extended c :
  Colour_wf c -> unpack_colour (pack_p1 c) (pack_p2 c) = c.
Proof.
  destruct c as [r g b]. intros (Hr & Hg & Hb). cbn [m_red m_green m_blue] in *.
  apply index_cases in Hr, Hg, Hb.
  repeat match goal with H : _ \/ _ |- _ => destruct H end; subst; reflexivity.
Qed.

Lemma unpack_pack_standard c :
  Colour_wf c ->
  unpack_colour (pack_p1 c) (u8 (derived_bit (pack_p1 c))) = standard_colour c.
Proof.
  destruct c as [r g b]. intros (Hr & Hg & Hb). cbn [m_red m_green m_blue] in *.
  apply index_cases in Hr, Hg, Hb.
  repeat match goal with H : _ \/ _ |- _ => destruct H end; subst; reflexivity.
Qed.

Section Nip.
Variable uninit : string -> nat -> Z.

Lemma nip_loop_length flags n : forall i f acc,
  length (fst (nip_loop uninit flags n i f acc)) = (length acc + n)%nat.
Proof.
  induction n as [|n IH]; intros i f acc; cbn [nip_loop].
  - cbn. lia.
  - destruct (read 1 f) as [got1 f1].
    destruct (negb (Z.land flags 1 =? 0)).
    + destruct (read 1 f1) as [got2 f2]. rewrite IH, length_app. cbn. lia.
    + rewrite IH, length_app. cbn. lia.
Qed.

Lemma nip_loop_written extended cs : forall i c0 rest acc,
  nip_loop uninit (flags_of extended) (length cs) i
    (mkStream c0 (flat_map (write_colour extended) cs ++ rest) false false) acc
  = (acc ++ map (fun c => if extended then unpack_colour (pack_p1 c) (pack_p2 c)
                          else unpack_colour (pack_p1 c) (u8 (derived_bit (pack_p1 c)))) cs,
     mkStream (c0 ++ flat_map (write_colour extended) cs) rest false false).
Proof.
  induction cs as [|c cs IH]; intros i c0 rest acc.
  - cbn. now rewrite !app_nil_r.
  - destruct extended; cbn [length nip_loop flat_map write_colour app].
    + change (read 1 (mkStream c0 (pack_p1 c :: pack_p2 c :: flat_map (write_colour true) cs ++ rest) false false))
        with ([pack_p1 c], mkStream (c0 ++ [pack_p1 c]) (pack_p2 c :: flat_map (write_colour true) cs ++ rest) false false).
      change (negb (Z.land (flags_of true) 1 =? 0)) with true. cbv iota.
      change (read 1 (mkStream (c0 ++ [pack_p1 c]) (pack_p2 c :: flat_map (write_colour true) cs ++ rest) false false))
        with ([pack_p2 c], mkStream ((c0 ++ [pack_p1 c]) ++ [pack_p2 c]) (flat_map (write_colour true) cs ++ rest) false false).
      cbn [stored_u8]. rewrite (IH _ _ rest). rewrite <- !app_assoc. reflexivity.
    + change (read 1 (mkStream c0 (pack_p1 c :: flat_map (write_colour false) cs ++ rest) false false))
        with ([pack_p1 c], mkStream (c0 ++ [pack_p1 c]) (flat_map (write_colour false) cs ++ rest) false false).
      change (negb (Z.land (flags_of false) 1 =? 0)) with false. cbv iota.
      rewrite (IH _ _ rest). rewrite <- !app_assoc. reflexivity.
Qed.

Lemma from_stream_nip fuel n fl body :
  Palette_from_stream uninit fuel (open_stream (lit "NIP0" ++ n :: fl :: body))
  = let (colours, f4) :=
        nip_loop uninit fl (Z.to_nat (if n =? 0 then 256 else n)) 0
                 (mkStream (lit "NIP0" ++ [n; fl]) body false false) [] in
    let (gott, _) := read 1 f4 in
    Constructed (mkPalette colours (stored_u8 0xe3 gott)).
Proof. reflexivity. Qed.


Lemma from_stream_nip_count fuel n rest :
  Palette_from_stream uninit fuel (open_stream (lit "NIP0" ++ n :: rest))
  = let (gotf, f3) := read 1 (mkStream (lit "NIP0" ++ [n]) rest false false) in
    let flags := stored_u8 (uninit "flags" 0) gotf in
    let (colours, f4) :=
        nip_loop uninit flags (Z.to_nat (if n =? 0 then 256 else n)) 0 f3 [] in
    let (gott, _) := read 1 f4 in
    Constructed (mkPalette colours (stored_u8 0xe3 gott)).
Proof. reflexivity. Qed.

Lemma read_not_good n f : good f = false -> read n f = ([], set_fail f).
Proof. intros H. unfold read. now rewrite H. Qed.

Lemma good_set_fail f : good (set_fail f) = false.
Proof. unfold good. cbn. apply andb_false_r. Qed.

Lemma read_1_short f : good f = true -> pending f = [] ->
  exists f', read 1 f = ([], f') /\ good f' = false.
Proof.
  destruct f as [c pd [] []]; cbn; intros Hg Hp; try discriminate; subst pd.
  eexists. split; reflexivity.
Qed.

Lemma read_1_some f b rest : good f = true -> pending f = b :: rest ->
  exists f', read 1 f = ([b], f') /\ good f' = true /\ pending f' = rest.
Proof.
  destruct f as [c pd [] []]; cbn; intros Hg Hp; try discriminate; subst pd.
  eexists. split; [reflexivity|]. split; reflexivity.
Qed.

(** A stream that cannot supply [n] entries and one more byte is not good,
    or is at its end, once the loop is over. *)
Lemma nip_loop_exhausts flags n : forall i f acc,
  (good f = false \/ (length (pending f) <= n * entry_size flags)%nat) ->
  let f' := snd (nip_loop uninit flags n i f acc) in
  good f' = false \/ pending f' = [].
Proof.
  induction n as [|n IH]; intros i f acc H; cbn [nip_loop].
  - cbn [snd]. destruct H as [H|H]; [now left|right].
    cbn in H. destruct (pending f); [reflexivity | cbn in H; lia].
  - destruct (good f) eqn:Hg.
    + destruct H as [H|H]; [discriminate|].
      destruct (pending f) as [|b1 rest] eqn:Hp.
      * destruct (read_1_short f Hg Hp) as (f1 & -> & Hg1).
        destruct (negb (Z.land flags 1 =? 0)).
        -- rewrite (read_not_good 1 f1 Hg1). apply IH. left. apply good_set_fail.
        -- apply IH. now left.
      * destruct (read_1_some f b1 rest Hg Hp) as (f1 & -> & Hg1 & Hp1).
        unfold entry_size in *. destruct (Z.land flags 1 =? 0); cbn [negb].
        -- apply IH. right. rewrite Hp1. cbn [length] in H. lia.
        -- destruct rest as [|b2 rest2].
           ++ destruct (read_1_short f1 Hg1 Hp1) as (f2 & -> & Hg2). apply IH. now left.
           ++ destruct (read_1_some f1 b2 rest2 Hg1 Hp1) as (f2 & -> & Hg2 & Hp2).
              apply IH. right. rewrite Hp2. cbn [length] in H. lia.
    + rewrite (read_not_good 1 f Hg).
      destruct (negb (Z.land flags 1 =? 0)).
      * rewrite (read_not_good 1 _ (good_set_fail f)). apply IH. left. apply good_set_fail.
      * apply IH. left. apply good_set_fail.
Qed.

Lemma read_1_nothing f : good f = false \/ pending f = [] -> fst (read 1 f) = [].
Proof.
  intros [H|H].
  - now rewrite read_not_good.
  - unfold read. rewrite H. destruct (good f); reflexivity.
Qed.

End Nip.

Lemma count_byte_restored (len : nat) :
  (1 <= len <= 256)%nat ->
  Z.to_nat (if u8 (Z.land (Z.of_nat len) 0xff) =? 0 then 256
            else u8 (Z.land (Z.of_nat len) 0xff)) = len.
Proof.
  intros H. change 0xff with (Z.ones 8). rewrite Z.land_ones by lia.
  unfold u8. change (2 ^ 8) with 256. rewrite Z.mod_mod by lia.
  destruct (Nat.eq_dec len 256) as [->|Hne]; [reflexivity|].
  rewrite Z.mod_small by lia.
  destruct (Z.eqb_spec (Z.of_nat len) 0); lia.
Qed.

Example standard_blue_values :
  map standard_blue [0; 1; 2; 3; 4; 5; 6; 7] = [0; 0; 3; 3; 5; 5; 7; 7].
Proof. reflexivity. Qed.

(** C4.  For a palette of 1 to 256 entries whose channels are all in 0..7:
    reading back what [write] emits in standard mode gives the same
    transparent index and, entry by entry, the same red and green and the
    blue rebuilt from its two high bits with the low bit recomputed as
    [((p1 & 2) >> 1) | (p1 & 1)]; reading back what [write] emits in
    extended mode gives the palette itself. *)
Theorem palette_round_trip uninit fuel (p : Palette) :
  Palette_wf p ->
  Palette_from_stream uninit fuel (open_stream (Palette_write p false))
  = Constructed (mkPalette (map standard_colour (m_colours p)) (m_transparentColour p))
  /\ Palette_from_stream uninit fuel (open_stream (Palette_write p true))
     = Constructed p.
Proof.
  intros (Hlen & Hwf & _). unfold Palette_write. split.
  - cbn [app]. rewrite from_stream_nip, count_byte_restored by assumption.
    rewrite (nip_loop_written uninit false). cbv iota. cbn [read good eofbit failbit negb andb pending firstn length Nat.ltb Nat.leb stored_u8 app].
    do 2 f_equal. apply map_ext_in. intros c Hc. apply unpack_pack_standard.
    rewrite Forall_forall in Hwf. auto.
  - cbn [app]. rewrite from_stream_nip, count_byte_restored by assumption.
    rewrite (nip_loop_written uninit true). cbv iota. cbn [read good eofbit failbit negb andb pending firstn length Nat.ltb Nat.leb stored_u8 app].
    destruct p as [cs t]. cbn [m_colours m_transparentColour] in *. do 2 f_equal.
    rewrite <- (map_id cs) at 2. apply map_ext_in. intros c Hc. apply unpack_pack_extended.
    rewrite Forall_forall in Hwf. auto.
Qed.

Lemma palette_round_trip_witness :
  Palette_from_stream (fun _ _ => 0) 0
    (open_stream (Palette_write (mkPalette [mkColour 1 2 3; mkColour 7 0 6] 1) false))
  = Constructed (mkPalette [mkColour 1 2 3; mkColour 7 0 7] 1)
  /\ Palette_from_stream (fun _ _ => 0) 0
       (open_stream (Palette_write (mkPalette [mkColour 1 2 3; mkColour 7 0 6] 1) true))
     = Constructed (mkPalette [mkColour 1 2 3; mkColour 7 0 6] 1).
Proof.
  apply (palette_round_trip (fun _ _ => 0) 0
           (mkPalette [mkColour 1 2 3; mkColour 7 0 6] 1)).
  split; [cbn; lia|]. split; [|cbn; lia].
  repeat constructor; cbn; lia.
Defined.

(** C5.  For a palette of 256 entries, the count byte [write] emits (offset
    4 of the file) is 0, and reading the file back gives a palette of 256
    entries, in either mode. *)
Theorem count_sentinel_round_trip uninit fuel (p : Palette) (extended : bool) :
  length (m_colours p) = 256%nat ->
  nth 4 (Palette_write p extended) 1 = 0 /\
  exists q, Palette_from_stream uninit fuel (open_stream (Palette_write p extended))
            = Constructed q
            /\ numColours q = 256.
Proof.
  intros Hlen. unfold Palette_write. rewrite Hlen.
  split; [reflexivity|]. cbn [app].
  change (u8 (Z.land (Z.of_nat 256) 255)) with 0.
  rewrite from_stream_nip. cbn [Z.eqb].
  destruct (nip_loop _ _ _ _ _ _) as [colours f4] eqn:E.
  destruct (read 1 f4) as [gott f5]. eexists. split; [reflexivity|].
  unfold numColours. cbn [m_colours].
  change colours with (fst (colours, f4)). rewrite <- E, nip_loop_length. reflexivity.
Qed.

Lemma count_sentinel_round_trip_witness :
  nth 4 (Palette_write Palette_default false) 1 = 0 /\
  exists q, Palette_from_stream (fun _ _ => 0) 0
              (open_stream (Palette_write Palette_default false)) = Constructed q
            /\ numColours q = 256.
Proof.
  apply (count_sentinel_round_trip (fun _ _ => 0) 0 Palette_default false).
  reflexivity.
Defined.

(** The entry count is not bounded by the constructor: a .pal text may
    declare and hold more than 256 colours, and [write] then stores the count
    modulo 256. *)
Example write_count_wraps :
  nth 4 (Palette_write (mkPalette (repeat (mkColour 0 0 0) 257) 0xe3) false) 0 = 1.
Proof. reflexivity. Qed.

(** C7 (what the code does).  A .nip stream declaring two entries that ends
    after the first one is read without any error: the constructor runs to
    its end and leaves a palette of two entries, the second made of what
    [p1] happened to hold, with the transparent index at its initial 0xe3. *)
Lemma truncated_nip_not_rejected :
  Palette_from_stream (fun _ _ => 0) 0 (open_stream (lit "NIP0" ++ [2; 0; 0xff]))
  = Constructed (mkPalette [mkColour 7 7 7; mkColour 0 0 0] 0xe3).
Proof. vm_compute. reflexivity. Qed.

(** In general, a stream that begins with "NIP0" and a count byte is never
    rejected, however early it ends: the constructor runs to its end and
    leaves a palette with the declared number of entries (0 standing for
    256); when the stream is too short to hold the entries and the
    transparent byte after the flags, the transparent index keeps its
    initial value 0xe3. *)
Lemma truncated_nip_is_accepted uninit fuel (n : Z) (rest : list Z) :
  0 <= n <= 255 ->
  exists q,
    Palette_from_stream uninit fuel (open_stream (lit "NIP0" ++ n :: rest)) = Constructed q
    /\ numColours q = (if n =? 0 then 256 else n)
    /\ (forall fl body, rest = fl :: body ->
          (length body <= Z.to_nat (numColours q) * entry_size fl)%nat ->
          getTransColour q = 0xe3).
Proof.
  intros Hn.
  assert (Hcount : forall flags f3 gott,
            numColours (mkPalette
              (fst (nip_loop uninit flags (Z.to_nat (if n =? 0 then 256 else n)) 0 f3 []))
              gott) = (if n =? 0 then 256 else n)).
  { intros. unfold numColours. cbn [m_colours]. rewrite nip_loop_length.
    cbn [length Nat.add]. destruct (Z.eqb_spec n 0); lia. }
  destruct rest as [|fl body].
  - rewrite from_stream_nip_count.
    destruct (read 1 _) as [gotf f3]. cbv zeta.
    destruct (nip_loop _ _ _ _ _ _) as [colours f4] eqn:E.
    destruct (read 1 f4) as [gott f5]. eexists. split; [reflexivity|].
    split; [|discriminate].
    change colours with (fst (colours, f4)). rewrite <- E. apply Hcount.
  - rewrite from_stream_nip.
    destruct (nip_loop _ _ _ _ _ _) as [colours f4] eqn:E.
    destruct (read 1 f4) as [gott f5] eqn:Et. eexists. split; [reflexivity|].
    assert (Hc : numColours (mkPalette colours (stored_u8 227 gott))
                 = (if n =? 0 then 256 else n)).
    { change colours with (fst (colours, f4)). rewrite <- E. apply Hcount. }
    split; [exact Hc|].
    intros fl' body' [= <- <-] Hshort. rewrite Hc in Hshort.
    pose proof (nip_loop_exhausts uninit fl (Z.to_nat (if n =? 0 then 256 else n)) 0
                  (mkStream (lit "NIP0" ++ [n; fl]) body false false) []
                  (or_intror Hshort)) as Hex.
    cbv zeta in Hex. rewrite E in Hex. cbn [snd] in Hex.
    apply read_1_nothing in Hex. rewrite Et in Hex. cbn [fst] in Hex. subst gott.
    reflexivity.
Qed.

Lemma truncated_nip_is_accepted_example :
  exists q,
    Palette_from_stream (fun _ _ => 0) 0 (open_stream (lit "NIP0" ++ 2 :: [0; 0xff]))
    = Constructed q
    /\ numColours q = 2
    /\ getTransColour q = 0xe3.
Proof.
  destruct (truncated_nip_is_accepted (fun _ _ => 0) 0 2 [0; 0xff]) as (q & Hq & Hn & Ht).
  - lia.
  - exists q. split; [exact Hq|]. split; [exact Hn|].
    apply (Ht 0 [0xff] eq_refl). rewrite Hn. cbn. lia.
Defined.

(** ** JASC .pal texts *)

Lemma span_app_stop keep a rest :
  Forall (fun c => keep c = true) a -> stops keep rest ->
  span keep (a ++ rest) = (a, rest).
Proof.
  intros Ha Hrest. induction Ha as [|c a Hc _ IH]; cbn [app span].
  - destruct rest as [|c rest]; [reflexivity|]. cbn in Hrest. cbn. now rewrite Hrest.
  - now rewrite Hc, IH.
Qed.

Lemma digit_not_space c : isdigit c = true -> isspace c = false.
Proof. unfold isdigit, isspace. lia. Qed.

Lemma space_not_digit c : isspace c = true -> isdigit c = false.
Proof. unfold isdigit, isspace. lia. Qed.

Lemma digit_not_sign c : isdigit c = true -> (c =? 45) = false /\ (c =? 43) = false.
Proof. unfold isdigit. lia. Qed.

Lemma dec_fold_nonneg digits : forall acc,
  Forall (fun c => isdigit c = true) digits -> 0 <= acc ->
  0 <= fold_left (fun a c => 10 * a + (c - 48)) digits acc.
Proof.
  induction digits as [|c ds IH]; intros acc Hd Hacc; cbn [fold_left]; [exact Hacc|].
  inversion Hd as [|? ? Hc Hds]; subst. apply IH; [exact Hds|].
  unfold isdigit in Hc. lia.
Qed.

Lemma dec_value_nonneg tok : is_number tok -> 0 <= dec_value tok.
Proof. intros [_ Hd]. apply dec_fold_nonneg; [exact Hd | lia]. Qed.

Lemma firstn_exact {A} (a rest : list A) : firstn (length a) (a ++ rest) = a.
Proof. rewrite firstn_app, Nat.sub_diag, firstn_all. cbn. apply app_nil_r. Qed.

Lemma skipn_exact {A} (a rest : list A) : skipn (length a) (a ++ rest) = rest.
Proof. rewrite skipn_app, Nat.sub_diag, skipn_all. reflexivity. Qed.

Lemma advance_token c a rest e fl :
  advance (length a) (mkStream c (a ++ rest) e fl) = mkStream (c ++ a) rest e fl.
Proof.
  unfold advance. cbn [consumed pending eofbit failbit].
  now rewrite firstn_exact, skipn_exact.
Qed.

(** The sentry in front of a token: it skips the white space [ws]. *)
Lemma sentry_token c0 ws d rest :
  Forall (fun c => isspace c = true) ws -> isspace d = false ->
  sentry (mkStream c0 (ws ++ d :: rest) false false)
  = (true, mkStream (c0 ++ ws) (d :: rest) false false).
Proof.
  intros Hws Hd. unfold sentry. cbn [good eofbit failbit negb andb pending].
  rewrite (span_app_stop isspace ws (d :: rest) Hws Hd), advance_token. reflexivity.
Qed.

Lemma number_not_space tok :
  Forall (fun c => isdigit c = true) tok ->
  Forall (fun c => negb (isspace c) = true) tok.
Proof.
  intros H. eapply Forall_impl; [|exact H]. cbn. intros c Hc.
  now rewrite (digit_not_space c Hc).
Qed.

Lemma blank_stops_token ws rest :
  is_blank ws -> stops (fun c => negb (isspace c)) (ws ++ rest).
Proof.
  intros [Hne Hws]. destruct ws as [|c ws]; [contradiction|].
  inversion Hws as [|? ? Hc _]; subst. cbn. now rewrite Hc.
Qed.

Lemma blank_stops_number ws rest : is_blank ws -> stops isdigit (ws ++ rest).
Proof.
  intros [Hne Hws]. destruct ws as [|c ws]; [contradiction|].
  inversion Hws as [|? ? Hc _]; subst. cbn. now apply space_not_digit.
Qed.

Lemma extract_int_number old c0 ws tok rest :
  Forall (fun c => isspace c = true) ws ->
  is_number tok -> dec_value tok <= INT_MAX ->
  stops isdigit rest ->
  extract_int old (mkStream c0 (ws ++ tok ++ rest) false false)
  = (dec_value tok, mkStream (c0 ++ ws ++ tok) rest (is_nil rest) false).
Proof.
  intros Hws Hnum Hmax Hrest. pose proof (dec_value_nonneg tok Hnum) as Hpos.
  destruct Hnum as [Hne Hd]. destruct tok as [|d tok]; [contradiction|].
  inversion Hd as [|? ? Hdig Hd']; subst.
  destruct (digit_not_sign d Hdig) as [Hm Hp].
  unfold extract_int. cbn [app].
  rewrite (sentry_token c0 ws d (tok ++ rest) Hws (digit_not_space d Hdig)).
  cbn [pending]. unfold take_sign. rewrite Hm, Hp.
  change (d :: tok ++ rest) with ((d :: tok) ++ rest).
  rewrite (span_app_stop isdigit (d :: tok) rest Hd Hrest).
  cbn [Nat.add]. rewrite advance_token, Z.mul_1_l.
  destruct (Z.ltb_spec INT_MAX (dec_value (d :: tok))) as [|_]; [lia|].
  destruct (Z.ltb_spec (dec_value (d :: tok)) INT_MIN) as [|_]; [unfold INT_MIN in *; lia|].
  destruct rest; cbn [is_nil set_eof consumed pending eofbit failbit];
    rewrite <- app_assoc; reflexivity.
Qed.

Lemma extract_string_token old c0 ws tok rest :
  Forall (fun c => isspace c = true) ws -> tok <> [] ->
  Forall (fun c => negb (isspace c) = true) tok ->
  stops (fun c => negb (isspace c)) rest ->
  extract_string old (mkStream c0 (ws ++ tok ++ rest) false false)
  = (tok, mkStream (c0 ++ ws ++ tok) rest (is_nil rest) false).
Proof.
  intros Hws Hne Htok Hrest. destruct tok as [|d tok]; [contradiction|].
  inversion Htok as [|? ? Hd Htok']; subst.
  unfold extract_string. cbn [app].
  rewrite (sentry_token c0 ws d (tok ++ rest) Hws) by (now apply negb_true_iff).
  cbn [pending]. change (d :: tok ++ rest) with ((d :: tok) ++ rest).
  rewrite (span_app_stop (fun c => negb (isspace c)) (d :: tok) rest Htok Hrest).
  rewrite advance_token.
  destruct rest; cbn [is_nil set_eof consumed pending eofbit failbit];
    rewrite <- app_assoc; reflexivity.
Qed.

Lemma stoi_number tok :
  is_number tok -> dec_value tok <= INT_MAX -> stoi tok = Some (dec_value tok).
Proof.
  intros Hnum Hmax. pose proof (dec_value_nonneg tok Hnum) as Hpos.
  destruct Hnum as [Hne Hd]. destruct tok as [|d tok]; [contradiction|].
  inversion Hd as [|? ? Hdig Hd']; subst.
  destruct (digit_not_sign d Hdig) as [Hm Hp].
  unfold stoi. cbn [span]. rewrite (digit_not_space d Hdig).
  unfold take_sign. rewrite Hm, Hp.
  rewrite <- (app_nil_r (d :: tok)) at 1.
  rewrite (span_app_stop isdigit (d :: tok) [] Hd I), Z.mul_1_l.
  destruct (Z.ltb_spec INT_MAX (dec_value (d :: tok))) as [|_]; [lia|].
  destruct (Z.ltb_spec (dec_value (d :: tok)) INT_MIN) as [|_]; [unfold INT_MIN in *; lia|].
  reflexivity.
Qed.

Section Pal.
Variable uninit : string -> nat -> Z.
Variables nl sp : list Z.
Hypothesis Hnl : is_blank nl.
Hypothesis Hsp : is_blank sp.

Lemma write_triples_stop ts : stops isdigit (flat_map (write_triple nl sp) ts).
Proof.
  destruct ts as [|[[r g] b] ts]; [exact I|].
  cbn [flat_map write_triple]. rewrite <- app_assoc. now apply blank_stops_number.
Qed.

Lemma write_triples_space ts :
  stops (fun c => negb (isspace c)) (flat_map (write_triple nl sp) ts).
Proof.
  destruct ts as [|[[r g] b] ts]; [exact I|].
  cbn [flat_map write_triple]. rewrite <- app_assoc. now apply blank_stops_token.
Qed.

Lemma write_triples_nil ts : is_nil (flat_map (write_triple nl sp) ts) = is_nil ts.
Proof.
  destruct ts as [|[[r g] b] ts]; [reflexivity|].
  destruct Hnl as [Hne _]. destruct nl; [contradiction | reflexivity].
Qed.

Lemma pal_loop_text ts : forall fuel num i c0 colours,
  Forall triple_ok ts -> (length ts < fuel)%nat ->
  pal_loop uninit fuel num i
    (mkStream c0 (flat_map (write_triple nl sp) ts) (is_nil ts) false) colours
  = PalDone (colours ++ map quantise_triple (firstn (taken num i (length ts)) ts)).
Proof.
  induction ts as [|[[r g] b] ts IH]; intros fuel num i c0 colours Hok Hfuel;
    (destruct fuel as [|fuel]; [cbn in Hfuel; lia|]).
  - cbn [pal_loop is_nil eofbit]. rewrite firstn_nil. cbn. now rewrite app_nil_r.
  - inversion Hok as [|? ? Ht Hok']; subst.
    destruct Ht as ((Hr & Hr255) & (Hg & Hg255) & (Hb & Hb255)).
    pose proof (dec_value_nonneg r Hr). pose proof (dec_value_nonneg g Hg).
    pose proof (dec_value_nonneg b Hb).
    destruct Hnl as [_ Hnlws]. pose proof Hsp as [_ Hspws].
    cbn [pal_loop is_nil eofbit flat_map write_triple].
    rewrite <- !app_assoc.
    rewrite (extract_int_number _ c0 nl r)
      by (try assumption; try (unfold INT_MAX; lia); now apply blank_stops_number).
    assert (Hmid : forall l : list Z, is_nil (sp ++ l) = false).
    { intros l. destruct Hsp as [Hne _]. destruct sp; [contradiction | reflexivity]. }
    rewrite Hmid.
    rewrite (extract_int_number _ _ sp g)
      by (try assumption; try (unfold INT_MAX; lia); now apply blank_stops_number).
    rewrite Hmid.
    rewrite (extract_int_number _ _ sp b)
      by (try assumption; try (unfold INT_MAX; lia); apply write_triples_stop).
    rewrite write_triples_nil.
    destruct (Z.ltb_spec (dec_value r) 0); [lia|].
    destruct (Z.ltb_spec 255 (dec_value r)); [lia|].
    destruct (Z.ltb_spec (dec_value g) 0); [lia|].
    destruct (Z.ltb_spec 255 (dec_value g)); [lia|].
    destruct (Z.ltb_spec (dec_value b) 0); [lia|].
    destruct (Z.ltb_spec 255 (dec_value b)); [lia|].
    cbn [orb].
    destruct (Z.eqb_spec (Z.of_nat (S i)) num) as [Hnum|Hnum].
    + unfold taken.
      destruct (Z.ltb_spec (Z.of_nat i) num); [|lia].
      destruct (Z.leb_spec num (Z.of_nat (i + length ((r, g, b) :: ts))));
        [|cbn [length] in *; lia].
      cbn [andb]. replace (Z.to_nat (num - Z.of_nat i)) with 1%nat by lia.
      reflexivity.
    + rewrite IH by (try assumption; cbn [length] in Hfuel; lia).
      rewrite <- app_assoc. cbn [app]. do 2 f_equal.
      assert (Hk : taken num i (length ((r, g, b) :: ts)) = S (taken num (S i) (length ts))).
      { unfold taken. cbn [length].
        destruct (Z.ltb_spec (Z.of_nat i) num),
                 (Z.leb_spec num (Z.of_nat (i + S (length ts))));
          destruct (Z.ltb_spec (Z.of_nat (S i)) num),
                   (Z.leb_spec num (Z.of_nat (S i + length ts)));
          cbn [andb]; lia. }
      rewrite Hk. reflexivity.
Qed.

(** A stream whose first four bytes are "JASC" takes the text branch. *)
Lemma from_stream_text fuel rest :
  Palette_from_stream uninit fuel (open_stream (lit "JASC" ++ rest))
  = let (line1, f3) := extract_string [] (open_stream (lit "JASC" ++ rest)) in
    if bytes_eqb line1 (lit "JASC-PAL") then
      let (line2, f4) := extract_string line1 f3 in
      if bytes_eqb line2 (lit "0100") then
        let (line3, f5) := extract_string line2 f4 in
        match stoi line3 with
        | None => Terminated
        | Some n =>
            match pal_loop uninit fuel (size_t n) 0 f5 [] with
            | PalOutOfFuel => OutOfFuel
            | PalInvalid => Rejected InvalidColorValue
            | PalDone colours =>
                if negb (size_t n =? Z.of_nat (length colours))
                then Rejected ColorCountMismatch
                else Constructed (mkPalette colours 0xe3)
            end
        end
      else Constructed (mkPalette [] 0xe3)
    else Constructed (mkPalette [] 0xe3).
Proof. reflexivity. Qed.

(** The header of a .pal text is read up to the count token. *)
Lemma from_stream_pal fuel count ts :
  is_number count -> dec_value count <= INT_MAX ->
  Palette_from_stream uninit fuel (open_stream (pal_text nl sp count ts))
  = match pal_loop uninit fuel (dec_value count) 0
            (mkStream (lit "JASC-PAL" ++ nl ++ lit "0100" ++ nl ++ count)
                      (flat_map (write_triple nl sp) ts) (is_nil ts) false) [] with
    | PalOutOfFuel => OutOfFuel
    | PalInvalid => Rejected InvalidColorValue
    | PalDone colours =>
        if negb (dec_value count =? Z.of_nat (length colours))
        then Rejected ColorCountMismatch
        else Constructed (mkPalette colours 0xe3)
    end.
Proof.
  intros Hnum Hmax. pose proof (dec_value_nonneg count Hnum) as Hpos.
  pose proof Hnl as [_ Hnlws].
  unfold pal_text.
  change (lit "JASC-PAL" ++ nl ++ lit "0100" ++ nl ++ count ++ flat_map (write_triple nl sp) ts)
    with (lit "JASC" ++ (lit "-PAL" ++ nl ++ lit "0100" ++ nl ++ count
                         ++ flat_map (write_triple nl sp) ts)).
  rewrite from_stream_text.
  change (open_stream (lit "JASC" ++ (lit "-PAL" ++ nl ++ lit "0100" ++ nl ++ count
                                      ++ flat_map (write_triple nl sp) ts)))
    with (mkStream [] ([] ++ lit "JASC-PAL" ++ (nl ++ lit "0100" ++ nl ++ count
                              ++ flat_map (write_triple nl sp) ts)) false false).
  rewrite (extract_string_token [] [] [] (lit "JASC-PAL"))
    by (try (now apply blank_stops_token); try discriminate; repeat constructor).
  change (bytes_eqb (lit "JASC-PAL") (lit "JASC-PAL")) with true. cbv iota.
  assert (Hmid : forall l : list Z, is_nil (nl ++ l) = false).
  { intros l. destruct Hnl as [Hne _]. destruct nl; [contradiction | reflexivity]. }
  rewrite Hmid.
  rewrite (extract_string_token _ _ nl (lit "0100"))
    by (try (now apply blank_stops_token); try discriminate; try assumption;
        repeat constructor).
  change (bytes_eqb (lit "0100") (lit "0100")) with true. cbv iota.
  rewrite Hmid.
  rewrite (extract_string_token _ _ nl count)
    by (try assumption; try apply Hnum; try (apply number_not_space, Hnum);
        apply write_triples_space).
  rewrite (stoi_number count Hnum Hmax).
  assert (Hsz : size_t (dec_value count) = dec_value count)
    by (unfold size_t; apply Z.mod_small; unfold INT_MAX in *; lia).
  rewrite Hsz, write_triples_nil.
  cbn [app]. rewrite <- !app_assoc. reflexivity.
Qed.

End Pal.

Lemma newline_is_blank : is_blank [10].
Proof. split; [discriminate | repeat constructor]. Qed.

Lemma crlf_is_blank : is_blank [13; 10].
Proof. split; [discriminate | repeat constructor]. Qed.

Lemma space_is_blank : is_blank [32].
Proof. split; [discriminate | repeat constructor]. Qed.

(** C6, as stated, fails: a text declaring one colour and holding two
    triples is accepted, the second triple being ignored. *)
Lemma pal_extra_triples_accepted :
  dec_value (lit "1") <> Z.of_nat (length [(lit "255", lit "0", lit "0");
                                           (lit "0", lit "255", lit "0")])
  /\ Palette_from_stream (fun _ _ => 0) 3
       (open_stream (pal_text [10] [32] (lit "1")
                       [(lit "255", lit "0", lit "0"); (lit "0", lit "255", lit "0")]))
     = Constructed (mkPalette [mkColour 7 0 0] 0xe3).
Proof. split; [vm_compute; discriminate | vm_compute; reflexivity]. Qed.

(** White space after the last triple makes the loop run once more on a
    stream that yields nothing: with three colours declared and two present,
    the third entry is made of what [red], [green] and [blue] happened to
    hold, and either passes the range check, giving a palette of three
    entries, or fails it. *)
Example pal_trailing_newline_pads :
  Palette_from_stream (fun _ _ => 0) 4
    (open_stream (pal_text [10] [32] (lit "3")
                    [(lit "255", lit "0", lit "0"); (lit "0", lit "255", lit "0")]
                  ++ [10]))
  = Constructed (mkPalette [mkColour 7 0 0; mkColour 0 7 0; mkColour 0 0 0] 0xe3)
  /\ Palette_from_stream (fun _ _ => 300) 4
       (open_stream (pal_text [10] [32] (lit "3")
                       [(lit "255", lit "0", lit "0"); (lit "0", lit "255", lit "0")]
                     ++ [10]))
     = Rejected InvalidColorValue.
Proof. split; vm_compute; reflexivity. Qed.

(** C6, amended.  For a .pal text that ends with the last digit of its last
    triple, with line separator [nl], channel separator [sp], a count token
    [c] and [n] triples of channels in 0..255: when fewer triples are
    present than declared, or triples are present and 0 is declared, the
    constructor reports the count mismatch and leaves the palette empty;
    when at least the declared number [c >= 1] of triples is present, the
    first [c] are quantised into the palette and the others are ignored. *)
Theorem pal_count_checked uninit fuel (nl sp count : list Z)
        (triples : list (list Z * list Z * list Z)) :
  is_blank nl -> is_blank sp ->
  is_number count ->
  dec_value count <= INT_MAX ->
  Forall triple_ok triples ->
  (length triples < fuel)%nat ->
  let c := dec_value count in
  let n := Z.of_nat (length triples) in
  let result :=
    Palette_from_stream uninit fuel (open_stream (pal_text nl sp count triples)) in
  (n < c \/ (c = 0 /\ 0 < n) -> result = Rejected ColorCountMismatch) /\
  (1 <= c <= n ->
   result = Constructed
              (mkPalette (map quantise_triple (firstn (Z.to_nat c) triples)) 0xe3)).
Proof.
  intros Hnl Hsp Hnum Hmax Hok Hfuel c n result.
  pose proof (dec_value_nonneg count Hnum) as Hpos. fold c in Hpos, Hmax.
  assert (Hres : result =
    if negb (c =? Z.of_nat (length (firstn (taken c 0 (length triples)) triples)))
    then Rejected ColorCountMismatch
    else Constructed (mkPalette
           (map quantise_triple (firstn (taken c 0 (length triples)) triples)) 0xe3)).
  { unfold result. rewrite (from_stream_pal uninit nl sp Hnl) by assumption.
    rewrite (pal_loop_text uninit nl sp Hnl Hsp) by assumption.
    cbn [app]. rewrite length_map. reflexivity. }
  rewrite Hres. unfold taken. cbn [Nat.add Z.of_nat]. rewrite Z.sub_0_r.
  rewrite length_firstn. fold n. split.
  - intros H.
    destruct (Z.ltb_spec 0 c), (Z.leb_spec c n); cbn [andb];
      match goal with
      | |- context [negb (?a =? ?b)] => destruct (Z.eqb_spec a b) as [E|E]
      end; cbn [negb]; try reflexivity; lia.
  - intros H.
    destruct (Z.ltb_spec 0 c); [|lia]. destruct (Z.leb_spec c n); [|lia]. cbn [andb].
    match goal with
    | |- context [negb (?a =? ?b)] => destruct (Z.eqb_spec a b) as [E|E]
    end; cbn [negb]; [reflexivity | lia].
Qed.

Lemma pal_count_checked_witness :
  Palette_from_stream (fun _ _ => 0) 3
    (open_stream (pal_text [13; 10] [32] (lit "3")
                    [(lit "255", lit "0", lit "0"); (lit "0", lit "255", lit "0")]))
  = Rejected ColorCountMismatch.
Proof.
  apply (pal_count_checked (fun _ _ => 0) 3 [13; 10] [32] (lit "3")
           [(lit "255", lit "0", lit "0"); (lit "0", lit "255", lit "0")]).
  - exact crlf_is_blank.
  - exact space_is_blank.
  - split; [discriminate | repeat constructor].
  - vm_compute. discriminate.
  - repeat constructor; try discriminate; vm_compute; discriminate.
  - cbn. lia.
  - left. vm_compute. reflexivity.
Defined.

(* ====================================================================== *)
(** * Part III: further properties of the program *)
(* ====================================================================== *)

(** ** More on the quantiser *)

(** A property checked on the 256 bytes holds of every byte. *)
Lemma byte_forall (P : Z -> bool) :
  forallb P (map Z.of_nat (seq 0 256)) = true ->
  forall v, 0 <= v <= 255 -> P v = true.
Proof.
  intros H v Hv. rewrite forallb_forall in H. apply H.
  rewrite <- (Z2Nat.id v) by lia. apply in_map, in_seq. lia.
Qed.

(** X1.  Expanding an index through its table and reducing the value again
    gives the index back: [gfxReduce3 (kColour_3bit[i]) = i] for the eight
    indices, [gfxReduce2 (kColour_2bit[i]) = i] for the four. *)
Theorem reduce_expand_identity (i : Z) :
  (0 <= i <= 7 -> gfxReduce3 (table_at kColour_3bit i) = i) /\
  (0 <= i <= 3 -> gfxReduce2 (table_at kColour_2bit i) = i).
Proof.
  split; intros Hi.
  - assert (H : i = 0 \/ i = 1 \/ i = 2 \/ i = 3 \/ i = 4 \/ i = 5 \/ i = 6 \/ i = 7) by lia.
    repeat (destruct H as [-> | H]; [reflexivity|]). subst. reflexivity.
  - assert (H : i = 0 \/ i = 1 \/ i = 2 \/ i = 3) by lia.
    repeat (destruct H as [-> | H]; [reflexivity|]). subst. reflexivity.
Qed.

Lemma reduce_expand_identity_witness :
  gfxReduce3 (table_at kColour_3bit 5) = 5 /\ gfxReduce2 (table_at kColour_2bit 2) = 2.
Proof.
  split; [apply (reduce_expand_identity 5) | apply (reduce_expand_identity 2)]; lia.
Defined.

(** X2.  The value an index stands for is never far from the byte it was
    reduced from: at most 18 away through the 3-bit table, at most 42 away
    through the 2-bit table. *)
Theorem quantisation_error_bound (v : Z) :
  0 <= v <= 255 ->
  Z.abs (v - table_at kColour_3bit (gfxReduce3 v)) <= 18 /\
  Z.abs (v - table_at kColour_2bit (gfxReduce2 v)) <= 42.
Proof.
  intros Hv.
  pose proof (byte_forall
    (fun v => (Z.abs (v - table_at kColour_3bit (gfxReduce3 v)) <=? 18)
              && (Z.abs (v - table_at kColour_2bit (gfxReduce2 v)) <=? 42))) as H.
  specialize (H ltac:(vm_compute; reflexivity) v Hv). cbv beta in H.
  apply andb_true_iff in H. destruct H as [H3 H2].
  apply Z.leb_le in H3, H2. split; assumption.
Qed.

Lemma quantisation_error_bound_witness :
  Z.abs (18 - table_at kColour_3bit (gfxReduce3 18)) <= 18 /\
  Z.abs (18 - table_at kColour_2bit (gfxReduce2 18)) <= 42.
Proof. apply (quantisation_error_bound 18). lia. Defined.

Lemma reduce_step_monotone v :
  0 <= v < 255 ->
  gfxReduce3 v <= gfxReduce3 (v + 1) /\ gfxReduce2 v <= gfxReduce2 (v + 1).
Proof.
  intros Hv.
  pose proof (byte_forall
    (fun v => (v =? 255) || ((gfxReduce3 v <=? gfxReduce3 (v + 1))
                             && (gfxReduce2 v <=? gfxReduce2 (v + 1))))) as H.
  specialize (H ltac:(vm_compute; reflexivity) v ltac:(lia)). cbv beta in H.
  apply orb_true_iff in H. destruct H as [H|H]; [apply Z.eqb_eq in H; lia|].
  apply andb_true_iff in H. destruct H as [H3 H2].
  apply Z.leb_le in H3, H2. split; assumption.
Qed.

(** X3.  Both reductions are monotone: a larger byte never gets a smaller
    index. *)
Theorem reduce_monotone (v w : Z) :
  0 <= v -> v <= w -> w <= 255 ->
  gfxReduce3 v <= gfxReduce3 w /\ gfxReduce2 v <= gfxReduce2 w.
Proof.
  intros Hv Hvw Hw.
  replace w with (v + Z.of_nat (Z.to_nat (w - v))) in * by lia.
  induction (Z.to_nat (w - v)) as [|n IH].
  - rewrite Z.add_0_r. lia.
  - assert (Hn : v + Z.of_nat n <= 255) by lia.
    specialize (IH ltac:(lia) Hn).
    destruct (reduce_step_monotone (v + Z.of_nat n) ltac:(lia)) as [H3 H2].
    replace (v + Z.of_nat (S n)) with (v + Z.of_nat n + 1) by lia. lia.
Qed.

Lemma reduce_monotone_witness :
  gfxReduce3 17 <= gfxReduce3 200 /\ gfxReduce2 17 <= gfxReduce2 200.
Proof. apply (reduce_monotone 17 200); lia. Defined.

(** ** More on the conversion *)

Lemma search_opaque_index (p : Palette) (x0 px : Z) :
  (exists i, candidate p i) ->
  alpha_of px = 255 ->
  exists m, nearest_entry p px m /\ classify p x0 px = u8 m.
Proof.
  intros (i & Hi & Hit) Ha.
  unfold classify. rewrite Ha. cbn [Z.eqb Pos.eqb negb].
  destruct (channel_ranges px) as (Hr & Hg & Hb).
  pose proof (search_result (m_colours p) (getTransColour p) _ _ _ (u8 x0) Hr Hg Hb) as H.
  unfold numColours in Hi.
  destruct H as [[_ Hno]|(m & Hm & Hmt & -> & Hmin)].
  - exfalso. apply Hit, Hno, Hi.
  - exists m. split; [|reflexivity].
    unfold nearest_entry, candidate, numColours, entry. fold (entry_dist (m_colours p)).
    repeat split; try lia.
    + intros j [Hj Hjt]. apply Hmin; assumption.
    + intros j [Hj Hjt] Hlt. apply Hmin; assumption.
Qed.

(** X4.  Without any bound on the palette: for an opaque pixel and a palette
    with a populated index other than the transparent one, the index
    computed is the nearest such index, lowest first, reduced modulo 256 by
    its storage in a [u8]. *)
Theorem classify_opaque_modulo (p : Palette) (x0 px : Z) :
  (exists i, candidate p i) ->
  alpha_of px = 255 ->
  exists m, nearest_entry p px m /\ classify p x0 px = u8 m.
Proof. exact (search_opaque_index p x0 px). Qed.

Lemma classify_opaque_modulo_witness :
  exists m, nearest_entry (mkPalette (repeat (mkColour 0 0 0) 256 ++ [mkColour 7 7 7]) 0xe3)
                          0xffffffff m
            /\ classify (mkPalette (repeat (mkColour 0 0 0) 256 ++ [mkColour 7 7 7]) 0xe3)
                        0 0xffffffff = u8 m.
Proof.
  apply classify_opaque_modulo.
  - exists 0. split; [cbn; lia | cbn; lia].
  - reflexivity.
Defined.

(** The 257th entry is the nearest one, and index 0 is what gets written. *)
Example classify_wraps_index :
  classify (mkPalette (repeat (mkColour 0 0 0) 256 ++ [mkColour 7 7 7]) 0xe3)
           0 0xffffffff = 0.
Proof. vm_compute. reflexivity. Qed.

(** With at most 256 entries the index is itself the nearest candidate. *)
Lemma classify_opaque_candidate (p : Palette) (x0 px : Z) :
  numColours p <= 256 -> (exists i, candidate p i) -> alpha_of px = 255 ->
  nearest_entry p px (classify p x0 px).
Proof.
  intros Hn Hc Ha. destruct (search_opaque_index p x0 px Hc Ha) as (m & Hm & ->).
  pose proof Hm as ([Hm1 Hm2] & _). rewrite u8_small by lia. exact Hm.
Qed.

Lemma classify_not_opaque (p : Palette) (x0 px : Z) :
  alpha_of px <> 255 -> classify p x0 px = getTransColour p.
Proof.
  intros Ha. unfold classify.
  destruct (Z.eqb_spec (alpha_of px) 255) as [E|_]; [contradiction | reflexivity].
Qed.

Lemma dist_nonneg c r g b : 0 <= dist c r g b.
Proof.
  unfold dist. cbv zeta.
  pose proof (Z.square_nonneg (table_at kColour_3bit (m_red c) - r)).
  pose proof (Z.square_nonneg (table_at kColour_3bit (m_green c) - g)).
  pose proof (Z.square_nonneg (table_at kColour_3bit (m_blue c) - b)). lia.
Qed.

(** X5.  A palette colour is found again: an opaque pixel at distance 0 from
    the entry of a candidate index [i] gets index [i], provided no lower
    candidate is at distance 0 too (palette of at most 256 entries). *)
Theorem classify_exact_match (p : Palette) (x0 px i : Z) :
  numColours p <= 256 ->
  candidate p i ->
  alpha_of px = 255 ->
  dist (entry p i) (red_of px) (green_of px) (blue_of px) = 0 ->
  (forall j, candidate p j -> j < i ->
             dist (entry p j) (red_of px) (green_of px) (blue_of px) <> 0) ->
  classify p x0 px = i.
Proof.
  intros Hn Hi Ha Hd Hlow.
  destruct (classify_opaque_candidate p x0 px Hn (ex_intro _ i Hi) Ha) as (Hx & Hmin & Hfirst).
  cbv zeta in Hmin, Hfirst.
  set (x := classify p x0 px) in *.
  pose proof (Hmin i Hi) as Hle. rewrite Hd in Hle.
  pose proof (dist_nonneg (entry p x) (red_of px) (green_of px) (blue_of px)) as H0.
  destruct (Z.lt_trichotomy x i) as [Hlt|[Heq|Hgt]].
  - exfalso. apply (Hlow x Hx Hlt). lia.
  - exact Heq.
  - exfalso. specialize (Hfirst i Hi Hgt). lia.
Qed.

Lemma classify_exact_match_witness :
  classify Palette_default 0 0xffff2400 = 7.
Proof.
  apply classify_exact_match.
  - vm_compute. discriminate.
  - split; [vm_compute; split; [discriminate | reflexivity] | vm_compute; discriminate].
  - reflexivity.
  - reflexivity.
  - intros j [[Hj0 Hj] _] Hlt.
    assert (H : j = 0 \/ j = 1 \/ j = 2 \/ j = 3 \/ j = 4 \/ j = 5 \/ j = 6) by lia.
    repeat (destruct H as [-> | H]; [vm_compute; discriminate|]). subst.
    vm_compute. discriminate.
Defined.

(** X6.  Shape of the file: for dimensions below 65536 whose product is
    within [int], flag 4 allowed only with at most 16 entries and an even
    width, [process_image] does not stop at its [assert]; it writes "NIM0",
    the width and the height as little-endian 16-bit fields that read back
    as they are, and then one byte per pixel, or one byte per two pixels
    with flag 4. *)
Theorem conversion_output_shape uninit (p : Palette) (img : Image) (flag4 : bool) :
  0 <= img_w img < 65536 ->
  0 <= img_h img < 65536 ->
  img_w img * img_h img <= INT_MAX ->
  (flag4 = true -> numColours p <= 16 /\ Z.even (img_w img) = true) ->
  exists file,
    process_image uninit p flag4 (Some img) true = Written file
    /\ firstn 4 file = lit "NIM0"
    /\ field16 file 4 = img_w img
    /\ field16 file 6 = img_h img
    /\ Z.of_nat (length file)
       = 8 + (if flag4 then img_w img * img_h img / 2 else img_w img * img_h img).
Proof.
  intros Hw Hh Hfit H4.
  assert (Hhdr : forall data,
            firstn 4 (nim_header (img_w img) (img_h img) ++ data) = lit "NIM0"
            /\ field16 (nim_header (img_w img) (img_h img) ++ data) 4 = img_w img
            /\ field16 (nim_header (img_w img) (img_h img) ++ data) 6 = img_h img
            /\ Z.of_nat (length (nim_header (img_w img) (img_h img) ++ data))
               = 8 + Z.of_nat (length data)).
  { intros data. unfold nim_header, field16, u16.
    rewrite (Z.mod_small (img_w img) 65536), (Z.mod_small (img_h img) 65536) by lia.
    pose proof (Z.div_mod (img_w img) 256 ltac:(lia)).
    pose proof (Z.div_mod (img_h img) 256 ltac:(lia)).
    split; [reflexivity|]. cbn [lit list_ascii_of_string map app nth length].
    repeat split; lia. }
  destruct flag4.
  - destruct (H4 eq_refl) as [Hn Hev].
    apply Z.even_spec in Hev. destruct Hev as [m Hm].
    assert (Hw2 : img_w img = 2 * Z.of_nat (Z.to_nat m)) by lia.
    eexists. split; [apply (process_image_4bit uninit p img (Z.to_nat m)); (assumption || lia)|].
    destruct (Hhdr (map (fun j => pair_at uninit p img (2 * j))
                        (seq 0 (Z.to_nat (img_h img) * Z.to_nat m)))) as (A & B & C & D).
    repeat split; try assumption. rewrite D, length_map, length_seq.
    rewrite Hw2 at 1. replace (2 * Z.of_nat (Z.to_nat m) * img_h img)
      with (Z.of_nat (Z.to_nat m) * img_h img * 2) by lia.
    rewrite Z.div_mul by lia. lia.
  - eexists. split; [apply process_image_8bit; (assumption || lia)|].
    destruct (Hhdr (map (index_at uninit p img)
                        (seq 0 (Z.to_nat (img_h img) * Z.to_nat (img_w img))))) as (A & B & C & D).
    repeat split; try assumption. rewrite D, length_map, length_seq. lia.
Qed.

Lemma conversion_output_shape_witness :
  exists file,
    process_image (fun _ _ => 0) Palette_default false
                  (Some (mkImage 2 1 [0xffff0000; 0xffff2400])) true = Written file
    /\ firstn 4 file = lit "NIM0"
    /\ field16 file 4 = 2
    /\ field16 file 6 = 1
    /\ Z.of_nat (length file) = 8 + 2 * 1.
Proof.
  apply (conversion_output_shape (fun _ _ => 0) Palette_default
           (mkImage 2 1 [0xffff0000; 0xffff2400]) false).
  - cbn. lia.
  - cbn. lia.
  - vm_compute. discriminate.
  - discriminate.
Defined.

(** X7.  In 8-bit mode, for an image whose pixel count is within [int], with
    a palette of at most 256 entries that has a candidate index, the
    transparent index marks exactly the pixels that are not fully opaque:
    the byte of pixel [k] is the transparent index if and only if the alpha
    of pixel [k] is not 255. *)
Theorem transparency_mask_exact uninit (p : Palette) (img : Image) (k : nat) :
  0 <= img_w img -> 0 <= img_h img ->
  img_w img * img_h img <= INT_MAX ->
  numColours p <= 256 ->
  (exists i, candidate p i) ->
  (k < Z.to_nat (img_h img) * Z.to_nat (img_w img))%nat ->
  exists file,
    process_image uninit p false (Some img) true = Written file
    /\ (nth (8 + k) file 0 = getTransColour p
        <-> alpha_of (pixel_at uninit img k) <> 255).
Proof.
  intros Hw Hh Hfit Hn Hc Hk.
  destruct (process_image_8bit_byte uninit p img k Hw Hh Hfit Hk) as (file & Hrun & Hbyte).
  exists file. split; [exact Hrun|]. rewrite Hbyte. unfold index_at. split.
  - intros Heq Ha.
    destruct (classify_opaque_candidate p (uninit "x"%string k) _ Hn Hc Ha) as ([_ Hne] & _).
    contradiction.
  - apply classify_not_opaque.
Qed.

Lemma transparency_mask_exact_witness :
  exists file,
    process_image (fun _ _ => 0) Palette_default false
                  (Some (mkImage 2 1 [0x00ff0000; 0xffff2400])) true = Written file
    /\ (nth (8 + 1) file 0 = getTransColour Palette_default
        <-> alpha_of (pixel_at (fun _ _ => 0) (mkImage 2 1 [0x00ff0000; 0xffff2400]) 1)
            <> 255).
Proof.
  apply (transparency_mask_exact (fun _ _ => 0) Palette_default
           (mkImage 2 1 [0x00ff0000; 0xffff2400]) 1%nat).
  - cbn. lia.
  - cbn. lia.
  - vm_compute. discriminate.
  - vm_compute. discriminate.
  - exists 0. split; [vm_compute; split; [discriminate | reflexivity] | vm_compute; discriminate].
  - cbn. lia.
Defined.

Lemma process_image_4bit_byte uninit (p : Palette) (img : Image) (m j : nat) :
  numColours p <= 16 -> img_w img = 2 * Z.of_nat m -> 0 <= img_h img ->
  img_w img * img_h img <= INT_MAX ->
  (j < Z.to_nat (img_h img) * m)%nat ->
  exists file,
    process_image uninit p true (Some img) true = Written file
    /\ nth (8 + j) file 0 = pair_at uninit p img (2 * j).
Proof.
  intros Hn Hw Hh Hfit Hj. eexists.
  split; [apply (process_image_4bit _ _ _ m); assumption|].
  assert (Hhdr : length (nim_header (img_w img) (img_h img)) = 8%nat) by reflexivity.
  rewrite app_nth2 by lia. rewrite Hhdr.
  replace (8 + j - 8)%nat with j by lia.
  rewrite (nth_indep _ 0 (pair_at uninit p img (2 * 0))) by (now rewrite length_map, length_seq).
  rewrite (map_nth (fun k => pair_at uninit p img (2 * k))), seq_nth by assumption.
  reflexivity.
Qed.

Lemma index_below uninit (p : Palette) (img : Image) (k : nat) (n : Z) :
  numColours p <= n -> n <= 256 -> 0 <= getTransColour p < n ->
  (exists i, candidate p i) ->
  0 <= index_at uninit p img k < n.
Proof.
  intros Hn Hn256 Ht Hc. unfold index_at.
  destruct (Z.eq_dec (alpha_of (pixel_at uninit img k)) 255) as [Ha|Ha].
  - destruct (classify_opaque_candidate p (uninit "x"%string k) _ ltac:(lia) Hc Ha)
      as ([Hx _] & _). lia.
  - rewrite classify_not_opaque by assumption. exact Ht.
Qed.

(** X8.  With flag 4, a pixel count within [int], at most 16 entries, a
    transparent index below 16 and a candidate index, nothing is lost in
    the packing: every index is below 16, and the byte of the pixels at
    offsets 2j and 2j+1 holds the first in its high nibble and the second
    in its low nibble. *)
Theorem four_bit_packing_lossless uninit (p : Palette) (img : Image) (m j : nat) :
  numColours p <= 16 ->
  0 <= getTransColour p < 16 ->
  (exists i, candidate p i) ->
  img_w img = 2 * Z.of_nat m ->
  0 <= img_h img ->
  img_w img * img_h img <= INT_MAX ->
  (j < Z.to_nat (img_h img) * m)%nat ->
  exists file,
    process_image uninit p true (Some img) true = Written file
    /\ nth (8 + j) file 0 / 16 = index_at uninit p img (2 * j)
    /\ nth (8 + j) file 0 mod 16 = index_at uninit p img (2 * j + 1).
Proof.
  intros Hn Ht Hc Hw Hh Hfit Hj.
  destruct (process_image_4bit_byte uninit p img m j Hn Hw Hh Hfit Hj)
    as (file & Hrun & Hbyte).
  exists file. split; [exact Hrun|]. rewrite Hbyte. unfold pair_at.
  rewrite pack_nibbles_wraps. replace (S (2 * j)) with (2 * j + 1)%nat by lia.
  pose proof (index_below uninit p img (2 * j) 16 Hn ltac:(lia) Ht Hc) as Hhi.
  pose proof (index_below uninit p img (2 * j + 1) 16 Hn ltac:(lia) Ht Hc) as Hlo.
  set (hi := index_at uninit p img (2 * j)) in *.
  set (lo := index_at uninit p img (2 * j + 1)) in *.
  rewrite (Z.mod_small hi 16) by lia.
  rewrite (Z.mod_small (16 * hi + lo) 256) by lia.
  split.
  - rewrite Z.mul_comm, Z.div_add_l by lia. rewrite Z.div_small by lia. lia.
  - rewrite Z.add_comm, Z.mul_comm, Z.mod_add by lia. apply Z.mod_small. lia.
Qed.

Lemma four_bit_packing_lossless_witness :
  exists file,
    process_image (fun _ _ => 0)
      (mkPalette (firstn 16 (m_colours Palette_default)) 0) true
      (Some (mkImage 2 1 [0xffff0000; 0xffff2400])) true = Written file
    /\ nth (8 + 0) file 0 / 16
       = index_at (fun _ _ => 0) (mkPalette (firstn 16 (m_colours Palette_default)) 0)
                  (mkImage 2 1 [0xffff0000; 0xffff2400]) (2 * 0)
    /\ nth (8 + 0) file 0 mod 16
       = index_at (fun _ _ => 0) (mkPalette (firstn 16 (m_colours Palette_default)) 0)
                  (mkImage 2 1 [0xffff0000; 0xffff2400]) (2 * 0 + 1).
Proof.
  apply (four_bit_packing_lossless (fun _ _ => 0)
           (mkPalette (firstn 16 (m_colours Palette_default)) 0)
           (mkImage 2 1 [0xffff0000; 0xffff2400]) 1%nat 0%nat).
  - vm_compute. discriminate.
  - cbn. lia.
  - exists 1. split; [vm_compute; split; [discriminate | reflexivity] | cbn; lia].
  - reflexivity.
  - cbn. lia.
  - vm_compute. discriminate.
  - cbn. lia.
Defined.

(** ** More on the .nip codec *)

Section NipDecode.
Variable uninit : string -> nat -> Z.

Lemma nip_loop_standard flags body : forall i c0 rest acc,
  Z.land flags 1 = 0 ->
  nip_loop uninit flags (length body) i (mkStream c0 (body ++ rest) false false) acc
  = (acc ++ map decode_standard body, mkStream (c0 ++ body) rest false false).
Proof.
  induction body as [|b body IH]; intros i c0 rest acc Hfl.
  - cbn. now rewrite !app_nil_r.
  - cbn [length nip_loop app].
    change (read 1 (mkStream c0 (b :: body ++ rest) false false))
      with ([b], mkStream (c0 ++ [b]) (body ++ rest) false false).
    rewrite Hfl. cbn [Z.eqb negb stored_u8].
    rewrite IH by assumption. rewrite <- !app_assoc. reflexivity.
Qed.

Lemma nip_loop_extended flags (pairs : list (Z * Z)) : forall i c0 rest acc,
  Z.land flags 1 <> 0 ->
  nip_loop uninit flags (length pairs) i
    (mkStream c0 (flat_map (fun ab => [fst ab; snd ab]) pairs ++ rest) false false) acc
  = (acc ++ map (fun ab => unpack_colour (fst ab) (snd ab)) pairs,
     mkStream (c0 ++ flat_map (fun ab => [fst ab; snd ab]) pairs) rest false false).
Proof.
  induction pairs as [|[a b] pairs IH]; intros i c0 rest acc Hfl.
  - cbn. now rewrite !app_nil_r.
  - cbn [length nip_loop flat_map app fst snd].
    change (read 1 (mkStream c0 (a :: b :: flat_map (fun ab => [fst ab; snd ab]) pairs ++ rest)
                             false false))
      with ([a], mkStream (c0 ++ [a])
                          (b :: flat_map (fun ab => [fst ab; snd ab]) pairs ++ rest)
                          false false).
    destruct (Z.eqb_spec (Z.land flags 1) 0) as [E|_]; [contradiction|]. cbn [negb].
    change (read 1 (mkStream (c0 ++ [a])
                             (b :: flat_map (fun ab => [fst ab; snd ab]) pairs ++ rest)
                             false false))
      with ([b], mkStream ((c0 ++ [a]) ++ [b])
                          (flat_map (fun ab => [fst ab; snd ab]) pairs ++ rest)
                          false false).
    cbn [stored_u8]. rewrite IH by assumption. rewrite <- !app_assoc. reflexivity.
Qed.

Lemma count_of_length (n : Z) (len : nat) :
  0 <= n <= 255 -> Z.of_nat len = (if n =? 0 then 256 else n) ->
  Z.to_nat (if n =? 0 then 256 else n) = len.
Proof. intros Hn H. rewrite <- H. apply Nat2Z.id. Qed.

(** X9.  A complete .nip file is decoded entry by entry: with bit 0 of the
    flags clear each body byte gives one colour, with bit 0 set each pair
    of bytes gives one; the other bits of the flags are not looked at, the
    byte after the body is the transparent index, and whatever follows it
    is ignored. *)
Theorem nip_complete_file_decoded fuel (n fl t : Z) (body : list Z)
        (pairs : list (Z * Z)) (extra : list Z) :
  0 <= n <= 255 ->
  (Z.land fl 1 = 0 ->
   Z.of_nat (length body) = (if n =? 0 then 256 else n) ->
   Palette_from_stream uninit fuel
     (open_stream (lit "NIP0" ++ n :: fl :: body ++ t :: extra))
   = Constructed (mkPalette (map decode_standard body) t)) /\
  (Z.land fl 1 <> 0 ->
   Z.of_nat (length pairs) = (if n =? 0 then 256 else n) ->
   Palette_from_stream uninit fuel
     (open_stream (lit "NIP0" ++ n :: fl
                   :: flat_map (fun ab => [fst ab; snd ab]) pairs ++ t :: extra))
   = Constructed (mkPalette (map (fun ab => unpack_colour (fst ab) (snd ab)) pairs) t)).
Proof.
  intros Hn. split; intros Hfl Hlen.
  - rewrite from_stream_nip, (count_of_length n _ Hn Hlen).
    rewrite nip_loop_standard by assumption. reflexivity.
  - rewrite from_stream_nip, (count_of_length n _ Hn Hlen).
    rewrite nip_loop_extended by assumption. reflexivity.
Qed.

End NipDecode.

Lemma nip_complete_file_decoded_witness :
  Palette_from_stream (fun _ _ => 0) 0
    (open_stream (lit "NIP0" ++ 2 :: 6 :: [0xff; 0x1c] ++ 9 :: [1; 2; 3]))
  = Constructed (mkPalette (map decode_standard [0xff; 0x1c]) 9).
Proof.
  apply (nip_complete_file_decoded (fun _ _ => 0) 0 2 6 9 [0xff; 0x1c] [] [1; 2; 3]).
  - lia.
  - reflexivity.
  - reflexivity.
Defined.

Lemma pack_decode_standard b : 0 <= b <= 255 -> pack_p1 (decode_standard b) = b.
Proof.
  intros Hb.
  pose proof (byte_forall (fun b => pack_p1 (decode_standard b) =? b)
                          ltac:(vm_compute; reflexivity) b Hb) as H.
  now apply Z.eqb_eq in H.
Qed.

(** X10.  Decoding then encoding is the identity on standard files: a
    complete .nip file with flags 0, 1 to 256 entries and body bytes in
    0..255 is read into a palette that [write] turns back, in standard
    mode, into the same bytes. *)
Theorem nip_standard_file_reencoded uninit fuel (body : list Z) (t : Z) :
  (1 <= length body <= 256)%nat ->
  Forall (fun b => 0 <= b <= 255) body ->
  exists p,
    Palette_from_stream uninit fuel
      (open_stream (lit "NIP0" ++ (Z.of_nat (length body) mod 256) :: 0 :: body ++ [t]))
    = Constructed p
    /\ Palette_write p false
       = lit "NIP0" ++ (Z.of_nat (length body) mod 256) :: 0 :: body ++ [t].
Proof.
  intros Hlen Hbytes.
  set (n := Z.of_nat (length body) mod 256).
  assert (Hn : 0 <= n <= 255) by (unfold n; pose proof (Z.mod_pos_bound (Z.of_nat (length body)) 256); lia).
  assert (Hcount : Z.of_nat (length body) = (if n =? 0 then 256 else n)).
  { unfold n. destruct (Nat.eq_dec (length body) 256) as [E|E].
    - rewrite E. reflexivity.
    - rewrite Z.mod_small by lia. destruct (Z.eqb_spec (Z.of_nat (length body)) 0); lia. }
  eexists. split.
  - rewrite from_stream_nip, (count_of_length n _ Hn Hcount).
    rewrite nip_loop_standard by reflexivity. reflexivity.
  - unfold Palette_write. cbn [m_colours m_transparentColour app].
    rewrite length_map. change 0xff with (Z.ones 8). rewrite Z.land_ones by lia.
    unfold u8. change (2 ^ 8) with 256. rewrite Z.mod_mod by lia. fold n.
    do 6 f_equal. f_equal.
    clear - Hbytes. induction Hbytes as [|b body Hb _ IH]; [reflexivity|].
    cbn [map flat_map write_colour app]. now rewrite pack_decode_standard, IH.
Qed.

Lemma nip_standard_file_reencoded_witness :
  exists p,
    Palette_from_stream (fun _ _ => 0) 0
      (open_stream (lit "NIP0" ++ (Z.of_nat (length [0xff; 0x1d]) mod 256) :: 0
                    :: [0xff; 0x1d] ++ [9]))
    = Constructed p
    /\ Palette_write p false
       = lit "NIP0" ++ (Z.of_nat (length [0xff; 0x1d]) mod 256) :: 0 :: [0xff; 0x1d] ++ [9].
Proof.
  apply (nip_standard_file_reencoded (fun _ _ => 0) 0 [0xff; 0x1d] 9).
  - cbn. lia.
  - repeat constructor; lia.
Defined.

(** What comes back of a palette of 1 to 256 entries, in either mode. *)
Lemma write_then_read uninit fuel (p : Palette) (extended : bool) :
  (1 <= length (m_colours p) <= 256)%nat ->
  Palette_from_stream uninit fuel (open_stream (Palette_write p extended))
  = Constructed
      (mkPalette
         (map (fun c => if extended then unpack_colour (pack_p1 c) (pack_p2 c)
                        else unpack_colour (pack_p1 c) (u8 (derived_bit (pack_p1 c))))
              (m_colours p))
         (m_transparentColour p)).
Proof.
  intros Hlen. unfold Palette_write. cbn [app].
  change (if extended then 1 else 0) with (flags_of extended).
  rewrite from_stream_nip, count_byte_restored by assumption.
  rewrite (nip_loop_written uninit extended). reflexivity.
Qed.

Lemma default_colour_standard i : standard_colour (default_colour i) = default_colour i.
Proof.
  unfold standard_colour, default_colour. cbn [m_red m_green m_blue]. f_equal.
  replace (Z.land i 2) with (Z.land (Z.land i 3) 2) by (now rewrite <- Z.land_assoc).
  replace (Z.land i 1) with (Z.land (Z.land i 3) 1) by (now rewrite <- Z.land_assoc).
  destruct (two_bits_cases i) as [-> |[-> |[-> | ->]]]; reflexivity.
Qed.

(** X11.  The default palette survives a round trip through a file exactly,
    in standard mode as in extended mode and whatever transparent index it
    was given: its blues are 0, 3, 5 and 7, which the standard layout
    restores. *)
Theorem default_palette_round_trip uninit fuel (t : Z) (extended : bool) :
  Palette_from_stream uninit fuel
    (open_stream (Palette_write (setTransparent t Palette_default) extended))
  = Constructed (setTransparent t Palette_default).
Proof.
  rewrite write_then_read
    by (cbn [setTransparent m_colours Palette_default]; rewrite length_map, length_seq; lia).
  unfold setTransparent. cbn [m_colours m_transparentColour Palette_default].
  do 2 f_equal. rewrite map_map. apply map_ext. intros i.
  destruct extended.
  - apply unpack_pack_extended, default_colour_wf.
  - rewrite unpack_pack_standard by apply default_colour_wf. apply default_colour_standard.
Qed.

Lemma standard_blue_idempotent b :
  0 <= b <= 7 -> standard_blue (standard_blue b) = standard_blue b /\ 0 <= standard_blue b <= 7.
Proof.
  intros Hb. apply index_cases in Hb.
  repeat (destruct Hb as [-> | Hb]; [split; [reflexivity | cbn; lia]|]).
  subst. split; [reflexivity | cbn; lia].
Qed.

(** X12.  The loss of the standard layout happens once: a palette read back
    from a standard file (1 to 256 entries, channels in 0..7) is written
    and read back in standard mode without any further change. *)
Theorem standard_round_trip_stable uninit fuel (p : Palette) :
  (1 <= length (m_colours p) <= 256)%nat ->
  Forall Colour_wf (m_colours p) ->
  exists q,
    Palette_from_stream uninit fuel (open_stream (Palette_write p false)) = Constructed q
    /\ Palette_from_stream uninit fuel (open_stream (Palette_write q false)) = Constructed q.
Proof.
  intros Hlen Hwf. eexists. split; [apply write_then_read; exact Hlen|].
  rewrite write_then_read by (cbn [m_colours]; rewrite length_map; exact Hlen).
  cbn [m_colours m_transparentColour]. do 2 f_equal.
  rewrite map_map. apply map_ext_in. intros c Hc.
  rewrite Forall_forall in Hwf. pose proof (Hwf c Hc) as Hcwf.
  rewrite (unpack_pack_standard c Hcwf).
  destruct Hcwf as (Hr & Hg & Hb).
  destruct (standard_blue_idempotent (m_blue c) Hb) as [Hidem Hrange].
  rewrite unpack_pack_standard by (unfold Colour_wf, standard_colour; cbn; lia).
  unfold standard_colour. cbn [m_red m_green m_blue]. now rewrite Hidem.
Qed.

Lemma standard_round_trip_stable_witness :
  exists q,
    Palette_from_stream (fun _ _ => 0) 0
      (open_stream (Palette_write (mkPalette [mkColour 1 2 4; mkColour 7 0 6] 1) false))
    = Constructed q
    /\ Palette_from_stream (fun _ _ => 0) 0 (open_stream (Palette_write q false))
       = Constructed q.
Proof.
  apply (standard_round_trip_stable (fun _ _ => 0) 0
           (mkPalette [mkColour 1 2 4; mkColour 7 0 6] 1)).
  - cbn. lia.
  - repeat constructor; cbn; lia.
Defined.

(** X13.  Whatever the stream holds, a palette the constructor completes has
    all its channels in 0..7, so that [process_image] indexes the 3-bit
    table inside its bounds. *)
Theorem constructor_keeps_channels uninit fuel (f : ifstream) (p : Palette) :
  Palette_from_stream uninit fuel f = Constructed p ->
  Forall Colour_wf (m_colours p).
Proof. exact (constructed_channels_wf uninit fuel f p). Qed.

Lemma constructor_keeps_channels_witness :
  Forall Colour_wf [mkColour 7 7 7; mkColour 0 0 0].
Proof.
  apply (constructor_keeps_channels (fun _ _ => 0) 0
           (open_stream (lit "NIP0" ++ [2; 0; 0xff]))
           (mkPalette [mkColour 7 7 7; mkColour 0 0 0] 0xe3)).
  vm_compute. reflexivity.
Defined.

Lemma read_keeps_bytes (P : Z -> Prop) n f :
  Forall P (pending f) ->
  Forall P (fst (read n f)) /\ Forall P (pending (snd (read n f))).
Proof.
  intros H. unfold read. destruct (good f); [|split; [constructor | exact H]].
  assert (Hf : Forall P (firstn n (pending f))).
  { rewrite <- (firstn_skipn n (pending f)) in H. apply Forall_app in H. apply H. }
  assert (Hs : Forall P (skipn n (pending f))).
  { rewrite <- (firstn_skipn n (pending f)) in H. apply Forall_app in H. apply H. }
  destruct (_ <? _)%nat; split; assumption.
Qed.

Lemma nip_loop_keeps_bytes uninit (P : Z -> Prop) flags n : forall i f acc,
  Forall P (pending f) -> Forall P (pending (snd (nip_loop uninit flags n i f acc))).
Proof.
  induction n as [|n IH]; intros i f acc H; cbn [nip_loop]; [exact H|].
  pose proof (read_keeps_bytes P 1 f H) as [_ H1].
  destruct (read 1 f) as [got1 f1]. cbn [snd] in H1.
  destruct (negb (Z.land flags 1 =? 0)).
  - pose proof (read_keeps_bytes P 1 f1 H1) as [_ H2].
    destruct (read 1 f1) as [got2 f2]. apply IH. exact H2.
  - apply IH. exact H1.
Qed.

(** X14.  Every stream of bytes that begins with "NIP0" and a count byte
    gives a palette that satisfies the palette invariant: 1 to 256 entries,
    channels in 0..7, transparent index a byte. *)
Theorem nip_palette_well_formed uninit fuel (n : Z) (rest : list Z) :
  Forall (fun b => 0 <= b <= 255) (n :: rest) ->
  exists q,
    Palette_from_stream uninit fuel (open_stream (lit "NIP0" ++ n :: rest)) = Constructed q
    /\ Palette_wf q.
Proof.
  intros Hbytes. inversion Hbytes as [|? ? Hn Hrest]; subst.
  rewrite from_stream_nip_count.
  pose proof (read_keeps_bytes (fun b => 0 <= b <= 255) 1
                (mkStream (lit "NIP0" ++ [n]) rest false false) Hrest) as [_ H3].
  destruct (read 1 _) as [gotf f3]. cbn [snd] in H3. cbv zeta.
  pose proof (nip_loop_keeps_bytes uninit (fun b => 0 <= b <= 255)
                (stored_u8 (uninit "flags"%string 0%nat) gotf)
                (Z.to_nat (if n =? 0 then 256 else n)) 0 f3 [] H3) as H4.
  pose proof (nip_loop_length uninit (stored_u8 (uninit "flags"%string 0%nat) gotf)
                (Z.to_nat (if n =? 0 then 256 else n)) 0 f3 []) as Hlen.
  pose proof (nip_loop_wf uninit (stored_u8 (uninit "flags"%string 0%nat) gotf)
                (Z.to_nat (if n =? 0 then 256 else n)) 0 f3 [] (Forall_nil _)) as Hwf.
  destruct (nip_loop _ _ _ _ _ _) as [colours f4]. cbn [fst snd] in *.
  pose proof (read_keeps_bytes (fun b => 0 <= b <= 255) 1 f4 H4) as [Ht _].
  destruct (read 1 f4) as [gott f5]. cbn [fst] in Ht.
  eexists. split; [reflexivity|]. split; [|split].
  - cbn [m_colours]. rewrite Hlen. destruct (Z.eqb_spec n 0); cbn [length]; lia.
  - exact Hwf.
  - cbn [m_transparentColour]. destruct gott as [|b gott]; cbn [stored_u8].
    + vm_compute. split; discriminate.
    + inversion Ht; assumption.
Qed.

Lemma nip_palette_well_formed_witness :
  exists q,
    Palette_from_stream (fun _ _ => 0) 0 (open_stream (lit "NIP0" ++ 2 :: [0; 0xff]))
    = Constructed q
    /\ Palette_wf q.
Proof.
  apply (nip_palette_well_formed (fun _ _ => 0) 0 2 [0; 0xff]).
  repeat constructor; lia.
Defined.

(** ** More on .pal texts *)

Section PalMore.
Variable uninit : string -> nat -> Z.
Variables nl sp : list Z.
Hypothesis Hnl : is_blank nl.
Hypothesis Hsp : is_blank sp.

(** One turn of the loop on a line of three decimal tokens. *)
Lemma pal_loop_line fuel num i c0 r g b rest colours :
  is_number r -> dec_value r <= INT_MAX ->
  is_number g -> dec_value g <= INT_MAX ->
  is_number b -> dec_value b <= INT_MAX ->
  stops isdigit rest ->
  pal_loop uninit (S fuel) num i
    (mkStream c0 (write_triple nl sp (r, g, b) ++ rest) false false) colours
  = if (255 <? dec_value r) || (255 <? dec_value g) || (255 <? dec_value b)
    then PalInvalid
    else if Z.of_nat (S i) =? num
         then PalDone (colours ++ [quantise_triple (r, g, b)])
         else pal_loop uninit fuel num (S i)
                (mkStream (c0 ++ write_triple nl sp (r, g, b)) rest (is_nil rest) false)
                (colours ++ [quantise_triple (r, g, b)]).
Proof.
  intros Hr Hrm Hg Hgm Hb Hbm Hrest.
  pose proof (dec_value_nonneg r Hr). pose proof (dec_value_nonneg g Hg).
  pose proof (dec_value_nonneg b Hb).
  destruct Hnl as [_ Hnlws]. pose proof Hsp as [_ Hspws].
  cbn [pal_loop eofbit write_triple].
  rewrite <- !app_assoc.
  rewrite (extract_int_number _ c0 nl r)
    by (try assumption; now apply blank_stops_number).
  assert (Hmid : forall l : list Z, is_nil (sp ++ l) = false).
  { intros l. destruct Hsp as [Hne _]. destruct sp; [contradiction | reflexivity]. }
  rewrite Hmid.
  rewrite (extract_int_number _ _ sp g)
    by (try assumption; now apply blank_stops_number).
  rewrite Hmid.
  rewrite (extract_int_number _ _ sp b) by assumption.
  destruct (Z.ltb_spec (dec_value r) 0); [lia|].
  destruct (Z.ltb_spec (dec_value g) 0); [lia|].
  destruct (Z.ltb_spec (dec_value b) 0); [lia|].
  cbn [orb]. rewrite !orb_false_r.
  replace ((255 <? dec_value r) || false || (255 <? dec_value g) || false
           || (255 <? dec_value b))
    with ((255 <? dec_value r) || (255 <? dec_value g) || (255 <? dec_value b))
    by (now rewrite !orb_false_r).
  destruct (_ || _ || _); [reflexivity|].
  unfold quantise_triple. rewrite <- !app_assoc. reflexivity.
Qed.

Lemma pal_loop_invalid good : forall fuel num i c0 colours r g b more,
  Forall triple_ok good ->
  is_number r -> dec_value r <= INT_MAX ->
  is_number g -> dec_value g <= INT_MAX ->
  is_number b -> dec_value b <= INT_MAX ->
  255 < dec_value r \/ 255 < dec_value g \/ 255 < dec_value b ->
  (length good < fuel)%nat ->
  (forall k, (1 <= k <= length good)%nat -> Z.of_nat (i + k) <> num) ->
  pal_loop uninit fuel num i
    (mkStream c0 (flat_map (write_triple nl sp) (good ++ (r, g, b) :: more)) false false)
    colours
  = PalInvalid.
Proof.
  induction good as [|[[r0 g0] b0] good IH];
    intros fuel num i c0 colours r g b more Hok Hr Hrm Hg Hgm Hb Hbm Hbad Hfuel Hnum;
    (destruct fuel as [|fuel]; [cbn in Hfuel; lia|]).
  - cbn [app flat_map].
    rewrite pal_loop_line by (try assumption; apply (write_triples_stop nl sp Hnl)).
    replace ((255 <? dec_value r) || (255 <? dec_value g) || (255 <? dec_value b)) with true;
      [reflexivity|].
    symmetry. rewrite !orb_true_iff, !Z.ltb_lt. tauto.
  - inversion Hok as [|? ? Ht Hok']; subst.
    destruct Ht as ((Hr0 & Hr255) & (Hg0 & Hg255) & (Hb0 & Hb255)).
    cbn [app flat_map].
    rewrite pal_loop_line
      by (try assumption; try (unfold INT_MAX; lia); apply (write_triples_stop nl sp Hnl)).
    destruct (Z.ltb_spec 255 (dec_value r0)); [lia|].
    destruct (Z.ltb_spec 255 (dec_value g0)); [lia|].
    destruct (Z.ltb_spec 255 (dec_value b0)); [lia|]. cbn [orb].
    destruct (Z.eqb_spec (Z.of_nat (S i)) num) as [E|E].
    + exfalso. apply (Hnum 1%nat); [cbn [length]; lia|]. rewrite <- E. f_equal. lia.
    + rewrite (write_triples_nil nl sp Hnl).
      replace (is_nil (good ++ (r, g, b) :: more)) with false by (now destruct good).
      apply IH; try assumption.
      * cbn [length] in Hfuel. lia.
      * intros k Hk. replace (S i + k)%nat with (i + S k)%nat by lia.
        apply Hnum. cbn [length]. lia.
Qed.

(** X15.  A .pal text in which a line holds a channel above 255 (all three
    tokens decimal) is rejected with the invalid-file message when the loop
    reaches that line, that is when fewer valid lines than declared come
    before it, or 0 is declared; the palette stays empty. *)
Theorem pal_channel_out_of_range fuel (count : list Z)
        (good : list (list Z * list Z * list Z)) (r g b : list Z)
        (more : list (list Z * list Z * list Z)) :
  is_number count -> dec_value count <= INT_MAX ->
  Forall triple_ok good ->
  is_number r -> dec_value r <= INT_MAX ->
  is_number g -> dec_value g <= INT_MAX ->
  is_number b -> dec_value b <= INT_MAX ->
  255 < dec_value r \/ 255 < dec_value g \/ 255 < dec_value b ->
  Z.of_nat (length good) < dec_value count \/ dec_value count = 0 ->
  (length good < fuel)%nat ->
  Palette_from_stream uninit fuel
    (open_stream (pal_text nl sp count (good ++ (r, g, b) :: more)))
  = Rejected InvalidColorValue.
Proof.
  intros Hc Hcm Hok Hr Hrm Hg Hgm Hb Hbm Hbad Hreach Hfuel.
  rewrite (from_stream_pal uninit nl sp Hnl) by assumption.
  replace (is_nil (good ++ (r, g, b) :: more)) with false by (now destruct good).
  rewrite pal_loop_invalid; try assumption; [reflexivity|].
  intros k Hk. cbn [Nat.add]. lia.
Qed.

End PalMore.

Lemma pal_channel_out_of_range_witness :
  Palette_from_stream (fun _ _ => 0) 2
    (open_stream (pal_text [13; 10] [32] (lit "2")
                    ([(lit "1", lit "2", lit "3")] ++ (lit "0", lit "256", lit "0") :: [])))
  = Rejected InvalidColorValue.
Proof.
  apply (pal_channel_out_of_range (fun _ _ => 0) [13; 10] [32] crlf_is_blank space_is_blank 2
           (lit "2") [(lit "1", lit "2", lit "3")] (lit "0") (lit "256") (lit "0") []).
  - split; [discriminate | repeat constructor].
  - vm_compute. discriminate.
  - repeat constructor; try discriminate; vm_compute; discriminate.
  - split; [discriminate | repeat constructor].
  - vm_compute. discriminate.
  - split; [discriminate | repeat constructor].
  - vm_compute. discriminate.
  - split; [discriminate | repeat constructor].
  - vm_compute. discriminate.
  - right. left. vm_compute. reflexivity.
  - left. vm_compute. reflexivity.
  - cbn. lia.
Defined.

Lemma bytes_eqb_eq a : forall b, bytes_eqb a b = true <-> a = b.
Proof.
  induction a as [|x a IH]; intros [|y b]; cbn [bytes_eqb]; split; intros H;
    try reflexivity; try discriminate.
  - apply andb_true_iff in H. destruct H as [Hx Hab].
    apply Z.eqb_eq in Hx. apply IH in Hab. now subst.
  - injection H as -> ->. rewrite Z.eqb_refl. now apply IH.
Qed.

Lemma bytes_eqb_neq a b : a <> b -> bytes_eqb a b = false.
Proof.
  intros H. destruct (bytes_eqb a b) eqn:E; [|reflexivity].
  apply bytes_eqb_eq in E. contradiction.
Qed.

Section Unrecognised.
Variable uninit : string -> nat -> Z.

(** A stream of at least four bytes whose first four are not the tag is
    rewound and read as text. *)
Lemma from_stream_not_nip fuel a b c d rest :
  0 <= a <= 255 -> 0 <= b <= 255 -> 0 <= c <= 255 -> 0 <= d <= 255 ->
  [a; b; c; d] <> lit "NIP0" ->
  Palette_from_stream uninit fuel (open_stream (a :: b :: c :: d :: rest))
  = let (line1, f3) := extract_string [] (open_stream (a :: b :: c :: d :: rest)) in
    if bytes_eqb line1 (lit "JASC-PAL") then
      let (line2, f4) := extract_string line1 f3 in
      if bytes_eqb line2 (lit "0100") then
        let (line3, f5) := extract_string line2 f4 in
        match stoi line3 with
        | None => Terminated
        | Some n =>
            match pal_loop uninit fuel (size_t n) 0 f5 [] with
            | PalOutOfFuel => OutOfFuel
            | PalInvalid => Rejected InvalidColorValue
            | PalDone colours =>
                if negb (size_t n =? Z.of_nat (length colours))
                then Rejected ColorCountMismatch
                else Constructed (mkPalette colours 0xe3)
            end
        end
      else Constructed (mkPalette [] 0xe3)
    else Constructed (mkPalette [] 0xe3).
Proof.
  intros Ha Hb Hc Hd Hne. unfold Palette_from_stream.
  change (read 4 (open_stream (a :: b :: c :: d :: rest)))
    with ([a; b; c; d], mkStream [a; b; c; d] rest false false).
  cbv iota beta.
  assert (Htag : (le_value (stored (le_bytes4 (uninit "tag"%string 0%nat)) [a; b; c; d])
                  =? 0x3050494e) = false).
  { apply Z.eqb_neq. cbn [stored length skipn le_bytes4 app le_value]. intros E.
    apply Hne. cbn [lit list_ascii_of_string map]. cbn.
    assert (a = 78 /\ b = 73 /\ c = 80 /\ d = 48) as (-> & -> & -> & ->) by lia.
    reflexivity. }
  rewrite Htag. reflexivity.
Qed.

(** X16.  A file that is neither a .nip file nor a text whose first token is
    JASC-PAL gives an empty palette, without any message: at least four
    bytes, the first four not "NIP0", and a first token other than
    "JASC-PAL". *)
Theorem unrecognised_format_empty fuel a b c d rest4 ws tok rest :
  0 <= a <= 255 -> 0 <= b <= 255 -> 0 <= c <= 255 -> 0 <= d <= 255 ->
  [a; b; c; d] <> lit "NIP0" ->
  a :: b :: c :: d :: rest4 = ws ++ tok ++ rest ->
  Forall (fun x => isspace x = true) ws ->
  tok <> [] ->
  Forall (fun x => negb (isspace x) = true) tok ->
  stops (fun x => negb (isspace x)) rest ->
  tok <> lit "JASC-PAL" ->
  Palette_from_stream uninit fuel (open_stream (a :: b :: c :: d :: rest4))
  = Constructed (mkPalette [] 0xe3).
Proof.
  intros Ha Hb Hc Hd Hne Hshape Hws Htok Hns Hrest Hother.
  rewrite from_stream_not_nip by assumption.
  rewrite Hshape. unfold open_stream.
  rewrite (extract_string_token [] [] ws tok rest) by assumption.
  now rewrite bytes_eqb_neq.
Qed.

(** X17.  A text whose first token is JASC-PAL but whose second token is
    not "0100" gives an empty palette as well, without any message. *)
Theorem unknown_version_empty fuel nl version rest :
  is_blank nl ->
  version <> [] ->
  Forall (fun x => negb (isspace x) = true) version ->
  stops (fun x => negb (isspace x)) rest ->
  version <> lit "0100" ->
  Palette_from_stream uninit fuel (open_stream (lit "JASC-PAL" ++ nl ++ version ++ rest))
  = Constructed (mkPalette [] 0xe3).
Proof.
  intros Hnl Hv Hns Hrest Hother. pose proof Hnl as [Hne Hnlws].
  change (lit "JASC-PAL" ++ nl ++ version ++ rest)
    with (lit "JASC" ++ (lit "-PAL" ++ nl ++ version ++ rest)).
  rewrite from_stream_text.
  change (open_stream (lit "JASC" ++ (lit "-PAL" ++ nl ++ version ++ rest)))
    with (mkStream [] ([] ++ lit "JASC-PAL" ++ (nl ++ version ++ rest)) false false).
  rewrite (extract_string_token [] [] [] (lit "JASC-PAL"))
    by (try (now apply blank_stops_token); try discriminate; repeat constructor).
  change (bytes_eqb (lit "JASC-PAL") (lit "JASC-PAL")) with true. cbv iota.
  replace (is_nil (nl ++ version ++ rest)) with false
    by (destruct nl; [contradiction | reflexivity]).
  rewrite (extract_string_token _ _ nl version rest) by assumption.
  now rewrite bytes_eqb_neq.
Qed.

(** X18.  A .pal text whose count token does not begin with a digit or a
    sign ends the program: [stoi] throws and nothing catches the
    exception. *)
Theorem pal_bad_count_terminates fuel nl c count rest :
  is_blank nl ->
  Forall (fun x => negb (isspace x) = true) (c :: count) ->
  isdigit c = false -> c <> 45 -> c <> 43 ->
  stops (fun x => negb (isspace x)) rest ->
  Palette_from_stream uninit fuel
    (open_stream (lit "JASC-PAL" ++ nl ++ lit "0100" ++ nl ++ (c :: count) ++ rest))
  = Terminated.
Proof.
  intros Hnl Hns Hdig Hm Hp Hrest. pose proof Hnl as [Hne Hnlws].
  change (lit "JASC-PAL" ++ nl ++ lit "0100" ++ nl ++ (c :: count) ++ rest)
    with (lit "JASC" ++ (lit "-PAL" ++ nl ++ lit "0100" ++ nl ++ (c :: count) ++ rest)).
  rewrite from_stream_text.
  change (open_stream (lit "JASC" ++ (lit "-PAL" ++ nl ++ lit "0100" ++ nl ++ (c :: count) ++ rest)))
    with (mkStream [] ([] ++ lit "JASC-PAL" ++ (nl ++ lit "0100" ++ nl ++ (c :: count) ++ rest))
                   false false).
  rewrite (extract_string_token [] [] [] (lit "JASC-PAL"))
    by (try (now apply blank_stops_token); try discriminate; repeat constructor).
  change (bytes_eqb (lit "JASC-PAL") (lit "JASC-PAL")) with true. cbv iota.
  assert (Hmid : forall l : list Z, is_nil (nl ++ l) = false).
  { intros l. destruct nl; [contradiction | reflexivity]. }
  rewrite Hmid.
  rewrite (extract_string_token _ _ nl (lit "0100"))
    by (try (now apply blank_stops_token); try discriminate; try assumption;
        repeat constructor).
  change (bytes_eqb (lit "0100") (lit "0100")) with true. cbv iota.
  rewrite Hmid.
  rewrite (extract_string_token _ _ nl (c :: count) rest)
    by (try assumption; discriminate).
  inversion Hns as [|? ? Hc _]; subst. apply negb_true_iff in Hc.
  unfold stoi. cbn [span]. rewrite Hc. unfold take_sign.
  destruct (Z.eqb_spec c 45); [contradiction|].
  destruct (Z.eqb_spec c 43); [contradiction|].
  cbn [span]. rewrite Hdig. reflexivity.
Qed.

End Unrecognised.

Lemma unrecognised_format_empty_witness :
  Palette_from_stream (fun _ _ => 0) 0 (open_stream (71 :: 73 :: 70 :: 56 :: [57; 97]))
  = Constructed (mkPalette [] 0xe3).
Proof.
  apply (unrecognised_format_empty (fun _ _ => 0) 0 71 73 70 56 [57; 97] []
           [71; 73; 70; 56; 57; 97] []).
  all: try lia; try discriminate; try reflexivity; try exact I; repeat constructor.
Defined.

Lemma unknown_version_empty_witness :
  Palette_from_stream (fun _ _ => 0) 0
    (open_stream (lit "JASC-PAL" ++ [10] ++ lit "0101" ++ [10; 49]))
  = Constructed (mkPalette [] 0xe3).
Proof.
  apply (unknown_version_empty (fun _ _ => 0) 0 [10] (lit "0101") [10; 49]).
  - exact newline_is_blank.
  - discriminate.
  - repeat constructor.
  - reflexivity.
  - discriminate.
Defined.

Lemma pal_bad_count_terminates_witness :
  Palette_from_stream (fun _ _ => 0) 0
    (open_stream (lit "JASC-PAL" ++ [10] ++ lit "0100" ++ [10] ++ (120 :: [49]) ++ [10]))
  = Terminated.
Proof.
  apply (pal_bad_count_terminates (fun _ _ => 0) 0 [10] 120 [49] [10]).
  - exact newline_is_blank.
  - repeat constructor.
  - reflexivity.
  - discriminate.
  - discriminate.
  - reflexivity.
Defined.

(** ** [indexStr] *)

Lemma hex_step_digit t c :
  is_hex_digit c = true -> hex_step t c = (16 * t + hex_digit_value c) mod 256.
Proof.
  unfold is_hex_digit, hex_step, hex_digit_value, u8. intros H.
  rewrite !Z.shiftl_mul_pow2 by lia. change (2 ^ 4) with 16.
  destruct ((48 <=? c) && (c <=? 57)) eqn:E1.
  - assert (E2 : (97 <=? c) && (c <=? 102) = false) by lia.
    assert (E3 : (65 <=? c) && (c <=? 70) = false) by lia.
    rewrite E2, E3. rewrite Zplus_mod_idemp_l. f_equal. lia.
  - destruct ((97 <=? c) && (c <=? 102)) eqn:E2.
    + assert (E3 : (65 <=? c) && (c <=? 70) = false) by lia.
      rewrite E3. rewrite Zplus_mod_idemp_l. f_equal. lia.
    + assert (E3 : (65 <=? c) && (c <=? 70) = true) by lia.
      rewrite E3. rewrite Zplus_mod_idemp_l. f_equal. lia.
Qed.

Lemma hex_step_other t c : is_hex_digit c = false -> hex_step t c = t.
Proof.
  unfold is_hex_digit, hex_step. intros H.
  apply orb_false_iff in H. destruct H as [H H3].
  apply orb_false_iff in H. destruct H as [H1 H2].
  now rewrite H1, H2, H3.
Qed.

Lemma hex_fold s : forall t T,
  t = T mod 256 ->
  fold_left hex_step s t
  = fold_left (fun acc c => 16 * acc + hex_digit_value c) (filter is_hex_digit s) T mod 256.
Proof.
  induction s as [|c s IH]; intros t T Ht; cbn [fold_left filter]; [exact Ht|].
  destruct (is_hex_digit c) eqn:E.
  - cbn [fold_left]. apply IH. rewrite hex_step_digit by assumption. subst t.
    rewrite <- Zplus_mod_idemp_l, Zmult_mod_idemp_r, Zplus_mod_idemp_l. reflexivity.
  - rewrite hex_step_other by assumption. apply IH. exact Ht.
Qed.

(** X19.  After a dollar sign the argument is read as hexadecimal: the
    characters that are not hexadecimal digits are skipped, and the value of
    the digits is taken modulo 256, so that only the last two digits
    count.  No such argument makes [indexStr] fail. *)
Theorem indexStr_hexadecimal (s : list Z) :
  indexStr (36 :: s) = Some (hex_value (filter is_hex_digit s) mod 256).
Proof.
  unfold indexStr. cbn [nth]. change (36 =? 36) with true. cbv iota.
  cbn [fold_left]. change (hex_step 0 36) with 0.
  rewrite (hex_fold s 0 0) by reflexivity. reflexivity.
Qed.

Example indexStr_examples :
  indexStr (lit "$e3") = Some 0xe3 /\ indexStr (lit "$1E3") = Some 0xe3
  /\ indexStr (lit "$0x1f") = Some 0x1f /\ indexStr (lit "$") = Some 0.
Proof. repeat split; reflexivity. Qed.

(** X20.  A decimal argument (digits only, value within [int]) gives its
    value modulo 256: 256 is index 0. *)
Theorem indexStr_decimal (tok : list Z) :
  is_number tok -> dec_value tok <= INT_MAX ->
  indexStr tok = Some (dec_value tok mod 256).
Proof.
  intros Hnum Hmax. unfold indexStr.
  destruct Hnum as [Hne Hd]. destruct tok as [|d tok]; [contradiction|].
  inversion Hd as [|? ? Hdig _]; subst. cbn [nth].
  replace (d =? 36) with false by (unfold isdigit in Hdig; lia).
  rewrite stoi_number by (try split; assumption). reflexivity.
Qed.

Lemma indexStr_decimal_witness : indexStr (lit "256") = Some (dec_value (lit "256") mod 256).
Proof.
  apply indexStr_decimal.
  - split; [discriminate | repeat constructor].
  - vm_compute. discriminate.
Defined.

(** ** Command line *)

Lemma parse_args_plain args : forall c,
  Forall (fun s => starts_with_dash s = false) args ->
  forall rest,
  parse_args (args ++ rest) c
  = parse_args rest (mkCmdLine (m_command c) (m_params c ++ args) (m_secondaryParams c)
                               (m_flags c) (m_longFlags c)).
Proof.
  induction args as [|a args IH]; intros c Hplain rest.
  - cbn [app]. rewrite app_nil_r. now destruct c.
  - inversion Hplain as [|? ? Ha Hargs]; subst.
    cbn [app parse_args]. rewrite Ha. rewrite IH by assumption.
    cbn [m_command m_params m_secondaryParams m_flags m_longFlags].
    now rewrite <- app_assoc.
Qed.

(** X21.  Arguments that do not begin with a dash are the parameters, in
    their order; after a bare double hyphen every argument is a secondary
    parameter as it stands, dashes or not. *)
Theorem plain_and_secondary_parameters (exe cmd : string) (pre post : list string) :
  Forall (fun s => starts_with_dash s = false) pre ->
  CmdLine_new (exe :: cmd :: pre) = Some (mkCmdLine cmd pre [] [] []) /\
  CmdLine_new (exe :: cmd :: pre ++ "--"%string :: post)
  = Some (mkCmdLine cmd pre post [] []).
Proof.
  intros Hpre. unfold CmdLine_new. split.
  - rewrite <- (app_nil_r pre) at 1. rewrite parse_args_plain by assumption. reflexivity.
  - rewrite parse_args_plain by assumption. reflexivity.
Qed.

Lemma plain_and_secondary_parameters_witness :
  CmdLine_new ("nim"%string :: "image"%string :: ["a.png"%string; "b.png"%string])
  = Some (mkCmdLine "image" ["a.png"%string; "b.png"%string] [] [] []) /\
  CmdLine_new ("nim"%string :: "image"%string
               :: ["a.png"%string; "b.png"%string] ++ "--"%string
               :: ["-4"%string; "--x"%string])
  = Some (mkCmdLine "image" ["a.png"%string; "b.png"%string]
                    ["-4"%string; "--x"%string] [] []).
Proof.
  apply (plain_and_secondary_parameters "nim" "image" ["a.png"%string; "b.png"%string]
           ["-4"%string; "--x"%string]).
  repeat constructor.
Defined.

(** X22.  A long flag takes the argument that follows it as its value,
    whatever that argument looks like, and the value is not a parameter;
    [longFlag] returns it, and returns the empty string for any other
    name. *)
Theorem long_flag_takes_next (exe cmd name value other : string) (pre post : list string) :
  Forall (fun s => starts_with_dash s = false) pre ->
  Forall (fun s => starts_with_dash s = false) post ->
  is_empty name = false -> is_empty value = false ->
  String.eqb name other = false ->
  exists c,
    CmdLine_new (exe :: cmd :: pre ++ String "-" (String "-" name) :: value :: post)
    = Some c
    /\ m_params c = pre ++ post
    /\ longFlag c name = value
    /\ longFlag c other = EmptyString.
Proof.
  intros Hpre Hpost Hname Hvalue Hother. unfold CmdLine_new.
  rewrite parse_args_plain by assumption.
  cbn [parse_args starts_with_dash tail_of]. rewrite Ascii.eqb_refl, Hname, Hvalue.
  rewrite <- (app_nil_r post). rewrite parse_args_plain by assumption.
  cbn [parse_args m_command m_params m_secondaryParams m_flags m_longFlags app].
  eexists. split; [reflexivity|]. cbn [m_params]. split; [now rewrite app_nil_r|].
  unfold longFlag, long_assign. cbn [m_longFlags filter long_find].
  rewrite String.eqb_refl, Hother. split; reflexivity.
Qed.

Lemma long_flag_takes_next_witness :
  exists c,
    CmdLine_new ("nim"%string :: "palette"%string
                 :: [] ++ String "-" (String "-" "transparent")
                 :: "-1"%string :: ["a.pal"%string])
    = Some c
    /\ m_params c = [] ++ ["a.pal"%string]
    /\ longFlag c "transparent" = "-1"%string
    /\ longFlag c "pal" = EmptyString.
Proof.
  apply (long_flag_takes_next "nim" "palette" "transparent" "-1" "pal" [] ["a.pal"%string]).
  all: try reflexivity; repeat constructor.
Defined.

(** X23.  A long flag that is the last argument makes the constructor read
    through the end of [argv]: no command line is built. *)
Theorem long_flag_last_overruns (exe cmd name : string) (pre : list string) :
  Forall (fun s => starts_with_dash s = false) pre ->
  is_empty name = false ->
  CmdLine_new (exe :: cmd :: pre ++ [String "-" (String "-" name)]) = None.
Proof.
  intros Hpre Hname. unfold CmdLine_new.
  rewrite parse_args_plain by assumption.
  cbn [parse_args starts_with_dash tail_of]. rewrite Ascii.eqb_refl, Hname. reflexivity.
Qed.

Lemma long_flag_last_overruns_witness :
  CmdLine_new ("nim"%string :: "image"%string
               :: ["a.png"%string] ++ [String "-" (String "-" "pal")]) = None.
Proof.
  apply (long_flag_last_overruns "nim" "image" "pal" ["a.png"%string]).
  - repeat constructor.
  - reflexivity.
Defined.

Lemma flags_emplace_spec x c fl :
  existsb (Ascii.eqb x) (flags_emplace c fl) = Ascii.eqb x c || existsb (Ascii.eqb x) fl.
Proof.
  unfold flags_emplace. destruct (existsb (Ascii.eqb c) fl) eqn:E.
  - destruct (Ascii.eqb_spec x c) as [->|_]; [now rewrite E | reflexivity].
  - rewrite existsb_app. cbn [existsb]. rewrite orb_false_r. apply orb_comm.
Qed.

Lemma flags_fold_spec x letters : forall fl,
  existsb (Ascii.eqb x) (fold_left (fun fl ch => flags_emplace ch fl) letters fl)
  = existsb (Ascii.eqb x) letters || existsb (Ascii.eqb x) fl.
Proof.
  induction letters as [|c letters IH]; intros fl; cbn [fold_left existsb]; [reflexivity|].
  rewrite IH, flags_emplace_spec.
  destruct (Ascii.eqb x c), (existsb (Ascii.eqb x) letters), (existsb (Ascii.eqb x) fl);
    reflexivity.
Qed.

(** X24.  An argument made of one dash and letters sets exactly those
    letters as flags and is not a parameter. *)
Theorem short_flags_set (exe cmd letters : string) (pre post : list string) (x : ascii) :
  Forall (fun s => starts_with_dash s = false) pre ->
  Forall (fun s => starts_with_dash s = false) post ->
  starts_with_dash letters = false ->
  exists c,
    CmdLine_new (exe :: cmd :: pre ++ String "-" letters :: post) = Some c
    /\ m_params c = pre ++ post
    /\ flag c x = existsb (Ascii.eqb x) (list_ascii_of_string letters).
Proof.
  intros Hpre Hpost Hletters. unfold CmdLine_new.
  rewrite parse_args_plain by assumption.
  cbn [parse_args starts_with_dash tail_of]. rewrite Ascii.eqb_refl, Hletters.
  rewrite <- (app_nil_r post). rewrite parse_args_plain by assumption.
  cbn [parse_args m_command m_params m_secondaryParams m_flags m_longFlags app].
  eexists. split; [reflexivity|]. cbn [m_params]. split; [now rewrite app_nil_r|].
  unfold flag. cbn [m_flags]. rewrite flags_fold_spec. cbn [existsb]. apply orb_false_r.
Qed.

Lemma short_flags_set_witness :
  exists c,
    CmdLine_new ("nim"%string :: "palette"%string :: [] ++ String "-" "9d" :: ["a.nip"%string])
    = Some c
    /\ m_params c = [] ++ ["a.nip"%string]
    /\ flag c "9" = existsb (Ascii.eqb "9") (list_ascii_of_string "9d").
Proof.
  apply (short_flags_set "nim" "palette" "9d" [] ["a.nip"%string] "9"%char).
  all: try reflexivity; repeat constructor.
Defined.

(** Started without any argument, the program has no command and reads
    its own name as a parameter. *)
Theorem no_command_reads_program_name (exe : string) :
  starts_with_dash exe = false ->
  CmdLine_new [exe] = Some (mkCmdLine EmptyString [exe] [] [] []).
Proof. intros H. unfold CmdLine_new. cbn [parse_args]. now rewrite H. Qed.

Lemma no_command_reads_program_name_witness :
  CmdLine_new ["nim"%string] = Some (mkCmdLine EmptyString ["nim"%string] [] [] []).
Proof. apply no_command_reads_program_name. reflexivity. Defined.

(** ** The handlers and [main] *)

Section HandlerFacts.
Variable uninit : string -> nat -> Z.
Variable fuel : nat.
Variable file_content : string -> option (list Z).
Variable can_create : string -> bool.
Variable replace_extension : string -> string -> string.
Variable load_image : string -> option Image.

Lemma write_palette_cases p path extended :
  (write_palette can_create p path extended = Returned 1 None /\ can_create path = false)
  \/ (write_palette can_create p path extended
      = Returned 0 (Some (path, Palette_write p extended)) /\ can_create path = true).
Proof. unfold write_palette. destruct (can_create path); [right | left]; now split. Qed.

Lemma default_not_empty t : m_colours (setTransparent t Palette_default) <> [].
Proof.
  intros H. apply (f_equal (@length Colour)) in H.
  cbn [setTransparent m_colours Palette_default] in H.
  rewrite length_map, length_seq in H. discriminate.
Qed.

(** X25.  When the palette handler returns 0 it has written one file, at
    the path of its parameter with extension .nip, holding a palette of at
    least one entry in the mode chosen by flag 9; the transparent index in
    that file comes from the command line alone (0xe3 when no --transparent
    value is given), never from the file that was read. *)
Theorem palette_handler_output (c : CmdLine) (path : string) (bytes : list Z) :
  palette_handler uninit fuel file_content can_create replace_extension c
  = Returned 0 (Some (path, bytes)) ->
  path = replace_extension (param c 0) ".nip"
  /\ exists p,
      bytes = Palette_write p (flag c "9")
      /\ m_colours p <> []
      /\ (if is_empty (longFlag c "transparent")
          then m_transparentColour p = 0xe3
          else indexStr (lit (longFlag c "transparent")) = Some (m_transparentColour p)).
Proof.
  unfold palette_handler.
  destruct (negb (numParams c =? 1)); [discriminate|]. cbv zeta.
  destruct (is_empty (longFlag c "transparent")) eqn:Et.
  - destruct (flag c "d").
    + destruct (write_palette_cases (setTransparent 227 Palette_default)
                  (replace_extension (param c 0) ".nip") (flag c "9")) as [[-> _]|[-> _]];
        [discriminate|].
      intros [= <- <-]. split; [reflexivity|]. eexists. split; [reflexivity|].
      split; [apply default_not_empty | reflexivity].
    + destruct (file_content (param c 0)) as [content|]; [|discriminate].
      destruct (Palette_from_stream uninit fuel (open_stream content)) as [p0|e| |];
        try discriminate.
      destruct (Z.eqb_spec (numColours (setTransparent 227 p0)) 0) as [|Hn]; [discriminate|].
      destruct (write_palette_cases (setTransparent 227 p0)
                  (replace_extension (param c 0) ".nip") (flag c "9")) as [[-> _]|[-> _]];
        [discriminate|].
      intros [= <- <-]. split; [reflexivity|]. eexists. split; [reflexivity|].
      split; [|reflexivity].
      intros H. apply Hn. unfold numColours. now rewrite H.
  - destruct (indexStr (lit (longFlag c "transparent"))) as [t|]; [|discriminate].
    destruct (flag c "d").
    + destruct (write_palette_cases (setTransparent t Palette_default)
                  (replace_extension (param c 0) ".nip") (flag c "9")) as [[-> _]|[-> _]];
        [discriminate|].
      intros [= <- <-]. split; [reflexivity|]. eexists. split; [reflexivity|].
      split; [apply default_not_empty | reflexivity].
    + destruct (file_content (param c 0)) as [content|]; [|discriminate].
      destruct (Palette_from_stream uninit fuel (open_stream content)) as [p0|e| |];
        try discriminate.
      destruct (Z.eqb_spec (numColours (setTransparent t p0)) 0) as [|Hn]; [discriminate|].
      destruct (write_palette_cases (setTransparent t p0)
                  (replace_extension (param c 0) ".nip") (flag c "9")) as [[-> _]|[-> _]];
        [discriminate|].
      intros [= <- <-]. split; [reflexivity|]. eexists. split; [reflexivity|].
      split; [|reflexivity].
      intros H. apply Hn. unfold numColours. now rewrite H.
Qed.

Lemma palette_handler_codes (c : CmdLine) code written :
  palette_handler uninit fuel file_content can_create replace_extension c
  = Returned code written ->
  (code = 0 /\ written <> None) \/ (code = 1 /\ written = None).
Proof.
  unfold palette_handler.
  destruct (negb (numParams c =? 1)); [intros [= <- <-]; now right|]. cbv zeta.
  destruct (if is_empty _ then _ else _) as [t|]; [|discriminate].
  assert (Hw : forall p path ext,
            write_palette can_create p path ext = Returned code written ->
            (code = 0 /\ written <> None) \/ (code = 1 /\ written = None)).
  { intros p path ext. unfold write_palette.
    destruct (can_create path); intros [= <- <-]; [left | right]; split;
      try reflexivity; discriminate. }
  destruct (flag c "d"); [apply Hw|].
  destruct (file_content (param c 0)); [|intros [= <- <-]; now right].
  destruct (Palette_from_stream _ _ _); try discriminate;
    try (intros [= <- <-]; now right).
  destruct (_ =? 0); [intros [= <- <-]; now right | apply Hw].
Qed.

Lemma image_handler_codes (c : CmdLine) code written :
  image_handler uninit fuel file_content can_create replace_extension load_image c
  = Returned code written ->
  (code = 0 /\ written <> None) \/ (code = 1 /\ written = None).
Proof.
  assert (Hp : forall p,
            process_image_cmd uninit can_create replace_extension load_image p c
            = Returned code written ->
            (code = 0 /\ written <> None) \/ (code = 1 /\ written = None)).
  { intros p. unfold process_image_cmd.
    destruct (process_image _ _ _ _ _); try discriminate;
      intros [= <- <-]; [right | left]; split; try reflexivity; discriminate. }
  unfold image_handler.
  destruct (negb (numParams c =? 1)); [intros [= <- <-]; now right|]. cbv zeta.
  destruct (negb (is_empty (longFlag c "pal"))); [|apply Hp].
  destruct (file_content (longFlag c "pal")); [|intros [= <- <-]; now right].
  destruct (Palette_from_stream _ _ _); try discriminate; apply Hp.
Qed.

(** X26.  Whenever [main] returns, the exit status is 0, also when the
    handler reported an error with code 1; a handler returns 0 exactly when
    it has written its file; and the syntax summary is printed exactly when
    the command is neither "palette" nor "image". *)
Theorem main_exit_status (argv : list string) status usage written :
  main uninit fuel file_content can_create replace_extension load_image argv
  = Exited status usage written ->
  status = 0
  /\ exists c, CmdLine_new argv = Some c
     /\ (usage = true <->
         String.eqb (m_command c) "palette" = false
         /\ String.eqb (m_command c) "image" = false)
     /\ (usage = false ->
         exists code,
           dispatch uninit fuel file_content can_create replace_extension load_image c
           = Some (Returned code written)
           /\ ((code = 0 /\ written <> None) \/ (code = 1 /\ written = None))).
Proof.
  unfold main. destruct (CmdLine_new argv) as [c|]; [|discriminate].
  unfold dispatch.
  destruct (String.eqb (m_command c) "palette") eqn:Ep.
  - destruct (palette_handler _ _ _ _ _ c) as [code w| |] eqn:E; try discriminate.
    intros [= <- <- <-]. pose proof (palette_handler_codes c code w E) as Hc.
    split; [reflexivity|]. exists c. split; [reflexivity|].
    assert (Hu : (code =? -1) = false) by (apply Z.eqb_neq; lia).
    rewrite Hu. split.
    + split; [discriminate | intros [H _]; congruence].
    + intros _. exists code. split; [now rewrite Ep, E | exact Hc].
  - destruct (String.eqb (m_command c) "image") eqn:Ei.
    + destruct (image_handler _ _ _ _ _ _ c) as [code w| |] eqn:E; try discriminate.
      intros [= <- <- <-]. pose proof (image_handler_codes c code w E) as Hc.
      split; [reflexivity|]. exists c. split; [reflexivity|].
      assert (Hu : (code =? -1) = false) by (apply Z.eqb_neq; lia).
      rewrite Hu. split.
      * split; [discriminate | intros [_ H]; congruence].
      * intros _. exists code. split; [now rewrite Ep, Ei, E | exact Hc].
    + intros [= <- <- <-]. split; [reflexivity|]. exists c. split; [reflexivity|].
      split; [split; [intros _; now split | reflexivity] | discriminate].
Qed.




Lemma classify_empty_palette t x0 px :
  classify (mkPalette [] t) x0 px = if alpha_of px =? 255 then u8 x0 else t.
Proof. unfold classify. cbn [m_colours search snd getTransColour m_transparentColour]. now destruct (alpha_of px =? 255). Qed.

(** X28.  The image command does not look at the number of entries of the
    palette it read: with a palette file that left the palette empty (not
    recognised, or rejected) the conversion is carried out all the same
    (8-bit mode, pixel count within [int]); every pixel that is not fully
    opaque gets 0xe3 and every opaque pixel gets whatever the uninitialised
    index held. *)
Theorem image_command_with_empty_palette (c : CmdLine) (path : string)
        (bytes : list Z) (img : Image) :
  m_params c = [path] ->
  is_empty (longFlag c "pal") = false ->
  flag c "4" = false ->
  file_content (longFlag c "pal") = Some bytes ->
  (Palette_from_stream uninit fuel (open_stream bytes) = Constructed (mkPalette [] 0xe3)
   \/ exists e, Palette_from_stream uninit fuel (open_stream bytes) = Rejected e) ->
  load_image path = Some img ->
  0 <= img_w img -> 0 <= img_h img ->
  img_w img * img_h img <= INT_MAX ->
  can_create (replace_extension path ".nim") = true ->
  image_handler uninit fuel file_content can_create replace_extension load_image c
  = Returned 0
      (Some (replace_extension path ".nim",
             nim_header (img_w img) (img_h img)
             ++ map (fun k => if alpha_of (pixel_at uninit img k) =? 255
                              then u8 (uninit "x"%string k) else 0xe3)
                    (seq 0 (Z.to_nat (img_h img) * Z.to_nat (img_w img))))).
Proof.
  intros Hp Hpal H4 Hfile Hempty Himg Hw Hh Hfit Hout.
  assert (Hrun : process_image_cmd uninit can_create replace_extension load_image
                   (mkPalette [] 0xe3) c
                 = Returned 0
                     (Some (replace_extension path ".nim",
                            nim_header (img_w img) (img_h img)
                            ++ map (fun k => if alpha_of (pixel_at uninit img k) =? 255
                                             then u8 (uninit "x"%string k) else 0xe3)
                                   (seq 0 (Z.to_nat (img_h img) * Z.to_nat (img_w img)))))).
  { unfold process_image_cmd, param. rewrite Hp. cbn [nth]. rewrite H4, Himg, Hout.
    rewrite process_image_8bit by assumption. do 4 f_equal.
    apply map_ext. intros k. unfold index_at. apply classify_empty_palette. }
  unfold image_handler, numParams. rewrite Hp. cbn [length Z.of_nat].
  change (negb (Z.pos (Pos.of_succ_nat 0) =? 1)) with false. cbv iota zeta.
  rewrite Hpal. cbn [negb]. rewrite Hfile.
  destruct Hempty as [-> | [e ->]]; exact Hrun.
Qed.

End HandlerFacts.

Lemma palette_handler_output_witness :
  "a.nip.nip"%string = ("a.nip" ++ ".nip")%string
  /\ exists p,
      lit "NIP0" ++ [1; 0; 0xff; 0xe3] = Palette_write p false
      /\ m_colours p <> []
      /\ m_transparentColour p = 0xe3.
Proof.
  apply (palette_handler_output (fun _ _ => 0) 0
           (fun _ => Some (lit "NIP0" ++ [1; 0; 0xff; 5])) (fun _ => true)
           (fun p e => (p ++ e)%string)
           (mkCmdLine "palette" ["a.nip"%string] [] [] [])
           "a.nip.nip"%string (lit "NIP0" ++ [1; 0; 0xff; 0xe3])).
  vm_compute. reflexivity.
Defined.

Lemma main_exit_status_witness :
  (0 : Z) = 0
  /\ exists c, CmdLine_new ["nim"%string; "palette"%string; "missing.pal"%string] = Some c
     /\ (false = true <->
         String.eqb (m_command c) "palette" = false
         /\ String.eqb (m_command c) "image" = false)
     /\ (false = false ->
         exists code,
           dispatch (fun _ _ => 0) 0 (fun _ => None) (fun _ => true)
                    (fun p e => (p ++ e)%string) (fun _ => None) c
           = Some (Returned code None)
           /\ ((code = 0 /\ @None (string * list Z) <> None) \/ (code = 1 /\ @None (string * list Z) = None))).
Proof.
  apply (main_exit_status (fun _ _ => 0) 0 (fun _ => None) (fun _ => true)
           (fun p e => (p ++ e)%string) (fun _ => None)
           ["nim"%string; "palette"%string; "missing.pal"%string] 0 false None).
  vm_compute. reflexivity.
Defined.


Lemma image_command_with_empty_palette_witness :
  image_handler (fun _ _ => 7) 0 (fun _ => Some (lit "GIF89a")) (fun _ => true)
    (fun p e => (p ++ e)%string)
    (fun _ => Some (mkImage 2 1 [0x00ffffff; 0xffffffff]))
    (mkCmdLine "image" ["a.png"%string] [] [] [("pal", "bad.gif")%string])
  = Returned 0
      (Some (("a.png" ++ ".nim")%string,
             nim_header 2 1
             ++ map (fun k => if alpha_of (pixel_at (fun _ _ => 7)
                                             (mkImage 2 1 [0x00ffffff; 0xffffffff]) k)
                                 =? 255
                              then u8 7 else 0xe3)
                    (seq 0 (Z.to_nat 1 * Z.to_nat 2)))).
Proof.
  apply (image_command_with_empty_palette (fun _ _ => 7) 0
           (fun _ => Some (lit "GIF89a")) (fun _ => true) (fun p e => (p ++ e)%string)
           (fun _ => Some (mkImage 2 1 [0x00ffffff; 0xffffffff]))
           (mkCmdLine "image" ["a.png"%string] [] [] [("pal", "bad.gif")%string])
           "a.png"%string (lit "GIF89a") (mkImage 2 1 [0x00ffffff; 0xffffffff])).
  - reflexivity.
  - reflexivity.
  - reflexivity.
  - reflexivity.
  - left. vm_compute. reflexivity.
  - reflexivity.
  - cbn. lia.
  - cbn. lia.
  - vm_compute. discriminate.
  - reflexivity.
Defined.
